(** * Structural MRI pipeline: a model of the two scripts and their properties

    The development embeds [scripts/structural_pipeline.py] and
    [scripts/summarize_dataset.py].  Both scripts are glue around a file
    system, so the model threads an in-memory file system through a small
    state-and-exception monad.  Floating-point numbers are kept abstract: the
    scripts only multiply them, compare them with integer labels, and convert
    cells to floats, and nothing proved here depends on rounding. *)

From Stdlib Require Import ZArith QArith Ascii.
From stdpp Require Import base option list sorting strings gmap pretty.

Local Open Scope string_scope.
Local Open Scope list_scope.
Local Open Scope nat_scope.

(** ** Numbers, cell values and exceptions *)

(** The operations the scripts use on NumPy / Python floats. *)
Class Float (F : Type) := {
  fone : F;                          (* 1.0, the empty product of [np.prod] *)
  fnan : F;                          (* float("nan") *)
  fmul : F → F → F;                  (* multiplication *)
  f_of_Z : Z → F;                    (* conversion of an integer *)
  feqb : F → F → bool;               (* element-wise [==] *)
  f_of_string : string → option F;   (* float("...") on a str; None: ValueError *)
  f_repr : F → string;               (* str(x), as used by an f-string *)
}.

(** Python exceptions raised or caught by the scripts. *)
Inductive Exn :=
  | FileNotFoundError | FileExistsError | NotADirectoryError | IsADirectoryError
  | RuntimeError | KeyError | IndexError | ValueError
  | ParserError | ImageFileError | OSError.

Global Instance Exn_eq_dec : EqDecision Exn.
Proof. solve_decision. Defined.

(** ** Paths (pathlib.PurePosixPath)

    A path is its parsed form: whether it is anchored at the root and its
    components.  Empty components and [.] are dropped when a string is parsed;
    [..] is kept until the path is resolved. *)

Record Path := mkPath { anchored : bool; parts : list string }.

Fixpoint split_on (sep : Ascii.ascii) (s : string) : list string :=
  match s with
  | EmptyString => [EmptyString]
  | String c s' =>
      if Ascii.eqb c sep then EmptyString :: split_on sep s'
      else match split_on sep s' with
           | [] => [String c EmptyString]
           | w :: ws => String c w :: ws
           end
  end.

Definition is_component (c : string) : bool :=
  negb (String.eqb c "") && negb (String.eqb c ".").

(** [s] has no path separator: it names one entry of a directory. *)
Fixpoint no_slash (s : string) : bool :=
  match s with
  | EmptyString => true
  | String c s' => negb (Ascii.eqb c "/") && no_slash s'
  end.

(** [Path(s)] *)
Definition path_of (s : string) : Path :=
  mkPath (String.prefix "/" s) (List.filter is_component (split_on "/"%char s)).

(** [p / s]: an absolute right operand replaces the left one. *)
Definition path_div (p : Path) (s : string) : Path :=
  let q := path_of s in
  if anchored q then q else mkPath (anchored p) (parts p ++ parts q).

Fixpoint join_with (sep : string) (l : list string) : string :=
  match l with
  | [] => ""
  | [x] => x
  | x :: l' => x +:+ sep +:+ join_with sep l'
  end.

(** [str(p)] *)
Definition path_str (p : Path) : string :=
  match parts p with
  | [] => if anchored p then "/" else "."
  | l => (if anchored p then "/" else "") +:+ join_with "/" l
  end.

(** [p.name] *)
Definition path_name (p : Path) : string := List.last (parts p) "".

Declare Scope path_scope.
Delimit Scope path_scope with path.
Bind Scope path_scope with Path.
Infix "//" := path_div (at level 40, left associativity) : path_scope.
Local Open Scope path_scope.

(** ** Tables and images *)

Section Model.
Context {F : Type} `{!Float F}.

(** A cell of a pandas object; a missing cell is [VFloat fnan]. *)
Inductive value :=
  | VStr (s : string)
  | VInt (z : Z)
  | VFloat (x : F)
  | VBool (b : bool).

Definition NaN : value := VFloat fnan.

(** What an f-string substitutes for a cell. *)
Definition format_value (v : value) : string :=
  match v with
  | VStr s => s
  | VInt z => pretty z
  | VFloat x => f_repr x
  | VBool true => "True"
  | VBool false => "False"
  end.

(** [float(v)] *)
Definition float_of (v : value) : Exn + F :=
  match v with
  | VStr s => match f_of_string s with Some x => inr x | None => inl ValueError end
  | VInt z => inr (f_of_Z z)
  | VFloat x => inr x
  | VBool b => inr (f_of_Z (if b then 1 else 0))
  end.

(** A DataFrame: column labels and rows of cells.  A row shorter than the
    header reads as NaN beyond its end, as pandas pads it. *)
Record DataFrame := mkDataFrame { columns : list string; rows : list (list value) }.

(** A row seen as a Series indexed by the column labels ([iterrows], [iloc]). *)
Definition Series : Type := list string * list value.

Fixpoint index_of (k : string) (l : list string) : option nat :=
  match l with
  | [] => None
  | x :: l' => if String.eqb x k then Some 0 else S <$> index_of k l'
  end.

(** [row[k]] *)
Definition series_getitem (r : Series) (k : string) : Exn + value :=
  match index_of k r.1 with
  | Some i => inr (nth i r.2 NaN)
  | None => inl KeyError
  end.

(** [row.get(k, default)] *)
Definition series_get (r : Series) (k : string) (default : value) : value :=
  match index_of k r.1 with
  | Some i => nth i r.2 NaN
  | None => default
  end.

(** The dtypes pandas gives the columns the scripts meet. *)
Inductive dtype := int64 | float64 | bool_ | object.

Definition dtype_of (v : value) : dtype :=
  match v with
  | VInt _ => int64
  | VFloat _ => float64
  | VBool _ => bool_
  | VStr _ => object
  end.

(** The common dtype of two ([find_common_type]): integers and floats meet
    in float64, booleans mix with nothing but booleans, anything else is
    object. *)
Definition common_type (a b : dtype) : dtype :=
  match a, b with
  | int64, int64 => int64
  | int64, float64 | float64, int64 | float64, float64 => float64
  | bool_, bool_ => bool_
  | _, _ => object
  end.

Definition common_types (l : list dtype) : dtype :=
  match l with
  | [] => object
  | d :: l' => fold_left common_type l' d
  end.

(** The dtype of column [j]: the common dtype of its cells, a cell missing
    from a short row being NaN. *)
Definition column_dtype (df : DataFrame) (j : nat) : dtype :=
  common_types ((λ r, dtype_of (nth j r NaN)) <$> rows df).

(** The dtype of a row taken out of the table: the common dtype of the
    columns. *)
Definition row_dtype (df : DataFrame) : dtype :=
  common_types (column_dtype df <$> seq 0 (length (columns df))).

(** A cell held with dtype [d]: an integer held as float64 is a float. *)
Definition astype (d : dtype) (v : value) : value :=
  match d, v with
  | float64, VInt z => VFloat (f_of_Z z)
  | _, _ => v
  end.

(** A row of [df] as the Series pandas builds from it: every cell has the
    dtype of its column, and the Series the common dtype of the columns.  In
    a table whose columns are all numeric, one of them float64, an integer
    cell is therefore read as a float: dtypes are not preserved across a
    row. *)
Definition as_series (df : DataFrame) (r : list value) : Series :=
  (columns df, imap (λ j v, astype (row_dtype df) (astype (column_dtype df j) v)) r).

(** [df.iterrows()] (the index labels are not used by the scripts) *)
Definition iterrows (df : DataFrame) : list Series :=
  as_series df <$> rows df.

(** [df.iloc[i]] *)
Definition iloc (df : DataFrame) (i : nat) : Exn + Series :=
  match rows df !! i with
  | Some r => inr (as_series df r)
  | None => inl IndexError
  end.

(** [df[k]], a column *)
Definition df_getitem (df : DataFrame) (k : string) : Exn + list value :=
  match index_of k (columns df) with
  | Some i => inr ((λ r, nth i r NaN) <$> rows df)
  | None => inl KeyError
  end.

(** A Python dict with string keys: insertion ordered, assignment to an
    existing key keeps its position. *)
Definition dict : Type := list (string * value).

Fixpoint dict_set (k : string) (v : value) (d : dict) : dict :=
  match d with
  | [] => [(k, v)]
  | (k', v') :: d' =>
      if String.eqb k' k then (k, v) :: d' else (k', v') :: dict_set k v d'
  end.

Fixpoint dict_get (k : string) (d : dict) : option value :=
  match d with
  | [] => None
  | (k', v') :: d' => if String.eqb k' k then Some v' else dict_get k d'
  end.

Definition dict_keys (d : dict) : list string := d.*1.

(** [pd.DataFrame(records)]: the columns are the keys in order of first
    appearance; a record without a key gets NaN in that column. *)
Definition add_keys (cols : list string) (d : dict) : list string :=
  fold_left (λ acc k, if bool_decide (k ∈ acc) then acc else acc ++ [k])
            (dict_keys d) cols.

Definition DataFrame_of (records : list dict) : DataFrame :=
  let cols := fold_left add_keys records [] in
  mkDataFrame cols ((λ d, (λ c, default NaN (dict_get c d)) <$> cols) <$> records).

(** [df.at[i, k]]: the cell of row [i] in column [k], when both exist. *)
Definition cell (df : DataFrame) (i : nat) (k : string) : option value :=
  r ← rows df !! i;
  j ← index_of k (columns df);
  Some (nth j r NaN).

(** A NIfTI image as the scripts see it: the voxel sizes of the header and
    the voxel array, flattened. *)
Record Image := mkImage { zooms : list F; fdata : list F }.

(** ** The file system *)

Inductive Content :=
  | Table (df : DataFrame)      (* a delimited text file, as pandas parses it *)
  | Nifti (img : Image)         (* a file nibabel can load *)
  | Raw (bytes : string).       (* anything else *)

Inductive Entry :=
  | File (c : Content)
  | Dir.

(** Entries are keyed by absolute, normalised component lists; the root is
    [[]].  Symbolic links are not modelled. *)
Record FS := mkFS { cwd : list string; entries : gmap (list string) Entry }.

Fixpoint normalize (acc : list string) (l : list string) : list string :=
  match l with
  | [] => acc
  | c :: l' =>
      if String.eqb c ".." then normalize (removelast acc) l'
      else normalize (acc ++ [c]) l'
  end.

(** The key of [p]: [p.resolve()] without symbolic links, which cancels
    [x/..] by name.  The operations below look an entry up under this key;
    for a path with a [..] component that is the entry the operating system
    reaches only if the directories before each [..] exist. *)
Definition resolve_key (fs : FS) (p : Path) : list string :=
  normalize (if anchored p then [] else cwd fs) (parts p).

(** [p.resolve()] *)
Definition resolve (fs : FS) (p : Path) : Path := mkPath true (resolve_key fs p).

Definition entry_at (fs : FS) (k : list string) : option Entry :=
  match k with
  | [] => Some Dir
  | _ => entries fs !! k
  end.

(** [p.exists()] *)
Definition exists_ (fs : FS) (p : Path) : bool :=
  bool_decide (is_Some (entry_at fs (resolve_key fs p))).

(** [p.is_dir()] *)
Definition is_dir (fs : FS) (p : Path) : bool :=
  match entry_at fs (resolve_key fs p) with
  | Some Dir => true
  | _ => false
  end.

(** The name of the entry with key [k] if it lies directly in the directory
    with key [d]. *)
Definition child_name (d k : list string) : option string :=
  match reverse k with
  | name :: rd => if bool_decide (reverse rd = d) then Some name else None
  | [] => None
  end.

(** Names of the entries of the directory with key [d] ([os.scandir]). *)
Definition scandir (fs : FS) (d : list string) : list string :=
  omap (child_name d) (map_to_list (entries fs)).*1.

(** Shell-style matching of one component, for patterns made of literal
    characters and [*] (the only wildcard the scripts use). *)
Fixpoint fnmatch (pat s : string) : bool :=
  match pat with
  | EmptyString => String.eqb s ""
  | String c pat' =>
      if Ascii.eqb c "*" then
        (fix star (s : string) : bool :=
           fnmatch pat' s ||
           match s with
           | EmptyString => false
           | String _ s' => star s'
           end) s
      else
        match s with
        | EmptyString => false
        | String d s' => Ascii.eqb c d && fnmatch pat' s'
        end
  end.

(** [p.glob(pattern)] for a one-component pattern: the matching children of
    [p], in the order the directory lists them. *)
Definition glob (fs : FS) (p : Path) (pattern : string) : list Path :=
  (λ name, mkPath (anchored p) (parts p ++ [name])) <$>
    List.filter (λ name, fnmatch pattern name) (scandir fs (resolve_key fs p)).

End Model.

(** ** The state-and-exception monad

    A computation reads and updates a state and either returns a value or
    raises; the effects made before a raise persist, as in Python. *)

Definition ST (S A : Type) : Type := S → (Exn + A) * S.

Section Monad.
Context {S : Type}.

Definition ret {A} (a : A) : ST S A := λ s, (inr a, s).

Definition bind {A B} (m : ST S A) (k : A → ST S B) : ST S B :=
  λ s, match m s with
       | (inr a, s') => k a s'
       | (inl e, s') => (inl e, s')
       end.

Definition raise {A} (e : Exn) : ST S A := λ s, (inl e, s).

(** [try: m  except Exception: h] *)
Definition try_except {A} (m : ST S A) (h : ST S A) : ST S A :=
  λ s, match m s with
       | (inr a, s') => (inr a, s')
       | (inl _, s') => h s'
       end.

(** A pure step that may raise. *)
Definition lift {A} (r : Exn + A) : ST S A := λ s, (r, s).

(** A query of the state. *)
Definition gets {A} (f : S → A) : ST S A := λ s, (inr (f s), s).

(** An update of the state. *)
Definition modify (f : S → S) : ST S unit := λ s, (inr tt, f s).

Fixpoint mapM {A B} (f : A → ST S B) (l : list A) : ST S (list B) :=
  match l with
  | [] => ret []
  | x :: l' => bind (f x) (λ y, bind (mapM f l') (λ ys, ret (y :: ys)))
  end.

End Monad.

(** Running a computation on the first component of a pair of states. *)
Definition on_fst {S1 S2 A} (m : ST S1 A) : ST (S1 * S2) A :=
  λ s, match m s.1 with (r, s1') => (r, (s1', s.2)) end.

(** Running a block that also mutates a local variable, initially [x]; the
    result is the variable's value at the end of the block. *)
Definition with_local {S1 S2} (x : S2) (m : ST (S1 * S2) unit) : ST S1 S2 :=
  λ s1, match m (s1, x) with
        | (inr _, (s1', x')) => (inr x', s1')
        | (inl e, (s1', _)) => (inl e, s1')
        end.

Declare Scope M_scope.
Delimit Scope M_scope with M.
Notation "x <- m ;; k" := (bind m (λ x, k))
  (at level 100, m at next level, right associativity) : M_scope.
Notation "m ;;; k" := (bind m (λ _, k))
  (at level 100, right associativity) : M_scope.
Local Open Scope M_scope.

Section FileOps.
Context {F : Type} `{!Float F}.

(** Computations over the file system. *)
Abbreviation M := (ST (FS (F:=F))).

(** The keys of a path's ancestors, the path itself last. *)
Definition ancestors (k : list string) : list (list string) :=
  (λ n, take n k) <$> seq 1 (length k).

Definition is_file (fs : FS (F:=F)) (k : list string) : bool :=
  match entry_at fs k with
  | Some (File _) => true
  | _ => false
  end.

(** [p.mkdir(parents=True, exist_ok=True)]: creates the missing ancestors
    and the directory; raises, changing nothing, when a component of the
    path is a regular file. *)
Definition mkdir_p (p : Path) : M unit :=
  λ fs,
    let k := resolve_key fs p in
    if existsb (is_file fs) (removelast (ancestors k)) then (inl NotADirectoryError, fs)
    else if is_file fs k then (inl FileExistsError, fs)
    else (inr tt, mkFS (cwd fs) (foldr (λ a m, <[a:=Dir]> m) (entries fs) (ancestors k))).

(** No component of [p] is a regular file, so that [mkdir_p p] succeeds. *)
Definition creatable (fs : FS (F:=F)) (p : Path) : bool :=
  forallb (λ a, negb (is_file fs a)) (ancestors (resolve_key fs p)).


(** The table stored at [p], if [p] is a file pandas can parse. *)
Definition table_at (fs : FS (F:=F)) (p : Path) : option DataFrame :=
  match entry_at fs (resolve_key fs p) with
  | Some (File (Table df)) => Some df
  | _ => None
  end.

(** [df.to_csv(p, ...)]: pandas first checks that the parent is a directory,
    then opens [p] for writing. *)
Definition to_csv (df : DataFrame (F:=F)) (p : Path) : M unit :=
  λ fs,
    let k := resolve_key fs p in
    match entry_at fs (removelast k), entry_at fs k with
    | Some Dir, Some Dir => (inl IsADirectoryError, fs)
    | Some Dir, _ => (inr tt, mkFS (cwd fs) (<[k:=File (Table df)]> (entries fs)))
    | _, _ => (inl OSError, fs)
    end.

(** [pd.read_csv(p, ...)] *)
Definition read_csv (p : Path) : M DataFrame :=
  λ fs, match entry_at fs (resolve_key fs p) with
        | Some (File (Table df)) => (inr df, fs)
        | Some (File _) => (inl ParserError, fs)
        | Some Dir => (inl IsADirectoryError, fs)
        | None => (inl FileNotFoundError, fs)
        end.

(** [nib.load(p)] *)
Definition nib_load (p : Path) : M Image :=
  λ fs, match entry_at fs (resolve_key fs p) with
        | Some (File (Nifti img)) => (inr img, fs)
        | Some (File _) => (inl ImageFileError, fs)
        | Some Dir => (inl ImageFileError, fs)
        | None => (inl FileNotFoundError, fs)
        end.

End FileOps.

(** ** scripts/structural_pipeline.py *)

Module structural_pipeline.
Section Script.
Context {F : Type} `{!Float F}.
Abbreviation M := (ST (FS (F:=F))).

Definition bids_root : Path := path_of "ds000246_mri".
Definition derivatives_dir : Path := bids_root // "derivatives".
Definition pipeline_dir : Path := derivatives_dir // "mri_pipeline".
Definition freesurfer_dir : Path := derivatives_dir // "freesurfer".

(** *** Subject discovery *)

Definition t1_candidate (sid : string) : Path :=
  bids_root // sid // "anat" // (sid +:+ "_T1w.nii.gz").

Definition all_subjects (fs : FS (F:=F)) : list string :=
  merge_sort String.le
    (path_name <$> List.filter (is_dir fs) (glob fs bids_root "sub-*")).

Definition subjects (fs : FS (F:=F)) : list string :=
  List.filter (λ sid, exists_ fs (t1_candidate sid)) (all_subjects fs).

(** *** [get_t1w_path] *)

Definition get_t1w_path (subject_id bids_root : string) : M string :=
  let t1w := path_of bids_root // subject_id // "anat" // (subject_id +:+ "_T1w.nii.gz") in
  found <- gets (λ fs, exists_ fs t1w) ;;
  if negb found then raise FileNotFoundError
  else
    r <- gets (λ fs, resolve fs t1w) ;;
    ret (path_str r).

(** *** [compute_tissue_volumes] *)

Definition tissue_labels : list (string * Z) := [("CSF", 0%Z); ("GM", 1%Z); ("WM", 2%Z)].

(** [np.prod] of a tuple: a left-to-right product. *)
Definition np_prod (l : list F) : F :=
  match l with
  | [] => fone
  | x :: l' => fold_left fmul l' x
  end.

(** [np.sum(data == label)] *)
Definition count_label (data : list F) (label : Z) : Z :=
  Z.of_nat (length (List.filter (λ v, feqb v (f_of_Z label)) data)).

(** The body of the loop over [seg_files]: every tissue entry is assigned. *)
Definition measure (img : Image (F:=F)) (volumes : dict (F:=F)) : dict (F:=F) :=
  let data := fdata img in
  let voxel_volume := np_prod (zooms img) in
  fold_left
    (λ volumes '(name, label),
       dict_set name (VFloat (fmul (f_of_Z (count_label data label)) voxel_volume)) volumes)
    tissue_labels volumes.

Fixpoint measure_all (seg_files : list string) (volumes : dict (F:=F)) : M dict :=
  match seg_files with
  | [] => ret volumes
  | seg_file :: rest =>
      img <- nib_load (path_of seg_file) ;;
      measure_all rest (measure img volumes)
  end.

Definition compute_tissue_volumes (seg_files : list string) (subject_id output_dir : string)
  : M string :=
  let volumes := [("subject_id", VStr subject_id)] in
  volumes <- measure_all seg_files volumes ;;
  let df := DataFrame_of [volumes] in
  let output_dir := path_of output_dir in
  mkdir_p output_dir ;;;
  let out_file := output_dir // (subject_id +:+ "_tissue_volumes.tsv") in
  to_csv df out_file ;;;
  ret (path_str out_file).

(** *** Nodes and connections of the nipype workflow *)

Inductive Interface :=
  | IdentityInterface (fields : list string)
  | Function (input_names output_names : list string) (function : string)
  | BET (frac : Q) (robust mask : bool)
  | FAST (segments output_biascorrected : bool)
  | ReconAll (directive : string) (openmp : Z).

Record Node := mkNode {
  name : string;
  interface : Interface;
  inputs : list (string * string);
  iterables : list (string * list string);
  overwrite : bool;
}.

Definition new_node (i : Interface) (name : string) : Node := mkNode name i [] [] false.

(** One item of the list given to [wf.connect]: source, destination and the
    (output field, input field) pairs. *)
Definition Connection : Type := Node * Node * list (string * string).

Record Workflow := mkWorkflow {
  wf_name : string;
  base_dir : string;
  wf_connections : list Connection;
}.

Definition inputnode (subjects : list string) : Node :=
  let n := new_node (IdentityInterface ["subject_id"]) "inputnode" in
  mkNode (name n) (interface n) (inputs n) [("subject_id", subjects)] (overwrite n).

Definition t1w_resolver (bids_root_resolved : string) : Node :=
  let n := new_node (Function ["subject_id"; "bids_root"] ["t1w"] "get_t1w_path")
                    "t1w_resolver" in
  mkNode (name n) (interface n) [("bids_root", bids_root_resolved)] (iterables n) true.

Definition HAS (which : string → option string) (cmd : string) : bool :=
  bool_decide (which cmd ≠ None).

Definition bet (which : string → option string) : option Node :=
  if HAS which "bet" then Some (new_node (BET (1 # 2) true true) "bet") else None.

Definition fast (which : string → option string) : option Node :=
  if HAS which "fast" then Some (new_node (FAST true true) "fast") else None.

Definition reconall (which : string → option string) (subjects_dir : string) : option Node :=
  if HAS which "recon-all" then
    let n := new_node (ReconAll "all" 4) "reconall" in
    Some (mkNode (name n) (interface n) [("subjects_dir", subjects_dir)]
                 (iterables n) (overwrite n))
  else None.

Definition volume_node (output_dir : string) : Node :=
  let n := new_node (Function ["seg_files"; "subject_id"; "output_dir"] ["out_file"]
                              "compute_tissue_volumes")
                    "volume_extraction" in
  mkNode (name n) (interface n) [("output_dir", output_dir)] (iterables n) true.

Definition connections (inputnode t1w_resolver volume_node : Node)
    (bet fast reconall : option Node) : list Connection :=
  let connections := [] in
  let connections := connections ++ [(inputnode, t1w_resolver, [("subject_id", "subject_id")])] in
  let connections :=
    match bet with
    | Some bet => connections ++ [(t1w_resolver, bet, [("t1w", "in_file")])]
    | None => connections
    end in
  let connections :=
    match fast with
    | Some fast =>
        let connections :=
          match bet with
          | Some bet => connections ++ [(bet, fast, [("out_file", "in_files")])]
          | None => connections ++ [(t1w_resolver, fast, [("t1w", "in_files")])]
          end in
        connections ++ [(fast, volume_node, [("partial_volume_files", "seg_files")])]
    | None => connections
    end in
  let connections := connections ++ [(inputnode, volume_node, [("subject_id", "subject_id")])] in
  match reconall with
  | Some reconall =>
      connections ++ [(t1w_resolver, reconall, [("t1w", "T1_files")])]
                  ++ [(inputnode, reconall, [("subject_id", "subject_id")])]
  | None => connections
  end.

(** [wf.connect(connections)] adds the two nodes of every item to the graph,
    a node (identified by its name, unique in a workflow) once. *)
Definition add_node (n : Node) (g : list Node) : list Node :=
  if existsb (λ m, String.eqb (name m) (name n)) g then g else g ++ [n].

Definition wf_nodes (wf : Workflow) : list Node :=
  fold_left (λ g '(src, dst, _), add_node dst (add_node src g)) (wf_connections wf) [].

(** The (node, output field) pairs connected to input [field] of the node
    named [dst]. *)
Definition sources (wf : Workflow) (dst field : string) : list (Node * string) :=
  flat_map (λ '(src, n, fields),
              if String.eqb (name n) dst then
                omap (λ '(out, inp), if String.eqb inp field then Some (src, out) else None)
                     fields
              else [])
           (wf_connections wf).

(** The command-line tool a node runs, for the three FSL / FreeSurfer
    interfaces. *)
Definition command (n : Node) : option string :=
  match interface n with
  | BET _ _ _ => Some "bet"
  | FAST _ _ => Some "fast"
  | ReconAll _ _ => Some "recon-all"
  | _ => None
  end.

(** *** The script, up to [wf.connect(connections)]

    [which] stands for [shutil.which] in the environment the script runs in. *)
(** The output directories; the assignment to [os.environ] that follows them
    does not touch the file system. *)
Definition setup : M unit :=
  mkdir_p pipeline_dir ;;;
  mkdir_p freesurfer_dir.

(** The nodes and the workflow, once the subjects and the two resolved
    paths are known. *)
Definition workflow (which : string → option string) (subjects : list string)
    (bids_root_resolved output_dir : string) : Workflow :=
  let inputnode := inputnode subjects in
  let t1w_resolver := t1w_resolver bids_root_resolved in
  let bet := bet which in
  let fast := fast which in
  let reconall := reconall which (path_str freesurfer_dir) in
  let volume_node := volume_node output_dir in
  mkWorkflow "structural_pipeline" (path_str pipeline_dir)
    (connections inputnode t1w_resolver volume_node bet fast reconall).

Definition script (which : string → option string) : M Workflow :=
  setup ;;;
  subjects <- gets subjects ;;
  if bool_decide (subjects = []) then raise RuntimeError
  else
    bids_root_resolved <- gets (λ fs, path_str (resolve fs bids_root)) ;;
    output_dir <- gets (λ fs, path_str (resolve fs (pipeline_dir // "metrics"))) ;;
    ret (workflow which subjects bids_root_resolved output_dir).

End Script.
End structural_pipeline.

(** ** scripts/summarize_dataset.py *)

Module summarize_dataset.
Section Script.
Context {F : Type} `{!Float F}.
Abbreviation M := (ST (FS (F:=F))).

(** [Path(__file__).resolve().parents[1]], the directory above [scripts/]. *)
Variable PROJECT_ROOT : Path.

Definition BIDS_ROOT : Path := PROJECT_ROOT // "ds000246_mri".
Definition DERIVATIVES_DIR : Path := BIDS_ROOT // "derivatives" // "mri_pipeline".
Definition METRICS_DIR : Path := DERIVATIVES_DIR // "metrics".
Definition SUMMARY_DIR : Path := DERIVATIVES_DIR // "summary".
Definition PARTICIPANTS_FILE : Path := BIDS_ROOT // "participants.tsv".
Definition OUTPUT_CSV : Path := SUMMARY_DIR // "dataset_summary.csv".

(** [d[k]] *)
Definition dict_getitem (d : dict (F:=F)) (k : string) : Exn + value :=
  match dict_get k d with
  | Some v => inr v
  | None => inl KeyError
  end.

(** Truth value of a cell, as [if] tests it. *)
Definition truthy (v : value (F:=F)) : bool :=
  match v with
  | VBool b => b
  | VStr s => negb (String.eqb s "")
  | VInt z => negb (Z.eqb z 0)
  | VFloat x => negb (feqb x (f_of_Z 0))
  end.

(** [subject_data[k] = float(mdf.iloc[0].get(k, float("nan")))] *)
Definition read_volume (mdf : DataFrame (F:=F)) (k : string)
  : ST (FS (F:=F) * dict (F:=F)) unit :=
  r0 <- lift (iloc mdf 0) ;;
  x <- lift (float_of (series_get r0 k NaN)) ;;
  modify (λ s, (s.1, dict_set k (VFloat x) s.2)).

(** [subject_data[k] = "n/a"] *)
Definition set_na (k : string) : ST (FS (F:=F) * dict (F:=F)) unit :=
  modify (λ s, (s.1, dict_set k (VStr "n/a") s.2)).

(** The body of the [try] statement. *)
Definition read_metrics (metrics_tsv : Path) : ST (FS (F:=F) * dict (F:=F)) unit :=
  mdf <- on_fst (read_csv metrics_tsv) ;;
  read_volume mdf "CSF" ;;;
  read_volume mdf "GM" ;;;
  read_volume mdf "WM".

(** The [except Exception] handler. *)
Definition metrics_unreadable : ST (FS (F:=F) * dict (F:=F)) unit :=
  set_na "CSF" ;;;
  set_na "GM" ;;;
  set_na "WM".

Definition parse_metrics (metrics_tsv : Path) : ST (FS (F:=F) * dict (F:=F)) unit :=
  try_except (read_metrics metrics_tsv) metrics_unreadable.

Definition metrics_tsv (sub_id : value (F:=F)) : Path :=
  METRICS_DIR // (format_value sub_id +:+ "_tissue_volumes.tsv").

(** The body of the loop over [participants.iterrows()]; the result is the
    [subject_data] appended to [rows]. *)
Definition subject_row (row : Series (F:=F)) : M dict :=
  sub_id <- lift (series_getitem row "participant_id") ;;
  let metrics_tsv := metrics_tsv sub_id in
  metrics_exists <- gets (λ fs, exists_ fs metrics_tsv) ;;
  let subject_data :=
    [("participant_id", sub_id);
     ("age", series_get row "age" (VStr "n/a"));
     ("sex", series_get row "sex" (VStr "n/a"));
     ("dominant_hand", series_get row "dominant_hand" (VStr "n/a"));
     ("metrics_exists", VBool metrics_exists)] in
  test <- lift (dict_getitem subject_data "metrics_exists") ;;
  subject_data <-
    (if truthy test then with_local subject_data (parse_metrics metrics_tsv)
     else ret subject_data) ;;
  qc <- lift (dict_getitem subject_data "metrics_exists") ;;
  ret (dict_set "qc_pass" qc subject_data).

(** The script up to the end of the loop: the final value of [rows]. *)
Definition collect_rows : M (list dict) :=
  mkdir_p SUMMARY_DIR ;;;
  found <- gets (λ fs, exists_ fs PARTICIPANTS_FILE) ;;
  if negb found then raise FileNotFoundError
  else
    participants <- read_csv PARTICIPANTS_FILE ;;
    mapM subject_row (iterrows participants).

(** The whole script; the last statement reads [summary_df["qc_pass"]] for the
    printed report. *)
Definition script : M unit :=
  rows <- collect_rows ;;
  let summary_df := DataFrame_of rows in
  to_csv summary_df OUTPUT_CSV ;;;
  _ <- lift (df_getitem summary_df "qc_pass") ;;
  ret tt.

End Script.
End summarize_dataset.

(** ** Vocabulary of the statements *)

Section Vocabulary.
Context {F : Type} `{!Float F}.
Import structural_pipeline summarize_dataset.



(** What one pass of the loop appends to [rows], for a row of
    [participants] and the file system [fs]. *)
Record summary_record (PROJECT_ROOT : Path) (fs : FS (F:=F)) (row : Series (F:=F))
    (d : dict (F:=F)) : Prop := {
  rec_id : ∃ sub_id, series_getitem row "participant_id" = inr sub_id;
  rec_age : dict_get "age" d = Some (series_get row "age" (VStr "n/a"));
  rec_sex : dict_get "sex" d = Some (series_get row "sex" (VStr "n/a"));
  rec_hand : dict_get "dominant_hand" d = Some (series_get row "dominant_hand" (VStr "n/a"));
  rec_exists : ∀ sub_id, series_getitem row "participant_id" = inr sub_id →
    dict_get "participant_id" d = Some sub_id ∧
    dict_get "metrics_exists" d = Some (VBool (exists_ fs (metrics_tsv PROJECT_ROOT sub_id))) ∧
    dict_get "qc_pass" d = Some (VBool (exists_ fs (metrics_tsv PROJECT_ROOT sub_id))) ∧
    (exists_ fs (metrics_tsv PROJECT_ROOT sub_id) = false →
       dict_get "CSF" d = None ∧ dict_get "GM" d = None ∧ dict_get "WM" d = None) ∧
    (exists_ fs (metrics_tsv PROJECT_ROOT sub_id) = true →
       ∀ d0 e, (read_metrics (metrics_tsv PROJECT_ROOT sub_id) (fs, d0)).1 = inl e →
       dict_get "CSF" d = Some (VStr "n/a") ∧ dict_get "GM" d = Some (VStr "n/a") ∧
       dict_get "WM" d = Some (VStr "n/a")) ∧
    (exists_ fs (metrics_tsv PROJECT_ROOT sub_id) = true →
       ∀ mdf r0 x y z,
         table_at fs (metrics_tsv PROJECT_ROOT sub_id) = Some mdf → iloc mdf 0 = inr r0 →
         float_of (series_get r0 "CSF" NaN) = inr x →
         float_of (series_get r0 "GM" NaN) = inr y →
         float_of (series_get r0 "WM" NaN) = inr z →
         dict_get "CSF" d = Some (VFloat x) ∧ dict_get "GM" d = Some (VFloat y) ∧
         dict_get "WM" d = Some (VFloat z));
}.

End Vocabulary.

(** ** A concrete environment

    Integers extended with a NaN stand for the floats when the model is run
    on examples. *)

Module example.

Definition parse_digits (s : string) : option Z :=
  foldl (λ acc c, n ← acc; d ← Ascii.is_nat c; Some (10 * n + Z.of_nat d)%Z)
        (Some 0%Z) (String.list_ascii_of_string s).

#[export] Instance exact : Float (option Z) := {|
  fone := Some 1%Z;
  fnan := None;
  fmul := λ x y, a ← x; b ← y; Some (a * b)%Z;
  f_of_Z := Some;
  feqb := λ x y, match x, y with
                 | Some a, Some b => Z.eqb a b
                 | _, _ => false
                 end;
  f_of_string := λ s, if String.eqb s "nan" then Some None
                      else if String.eqb s "" then None
                      else Some <$> parse_digits s;
  f_repr := λ x, match x with
                 | Some a => pretty a +:+ ".0"
                 | None => "nan"
                 end;
|}.

(** A 2 x 2 x 3 mm grid with seven voxels. *)
Definition pve : Image (F:=option Z) :=
  mkImage [Some 2; Some 2; Some 3]%Z
          [Some 0; Some 1; Some 1; Some 2; Some 5; Some 0; Some 0]%Z.

Definition pve' : Image (F:=option Z) :=
  mkImage [Some 1; Some 1; Some 1]%Z [Some 2; Some 2; Some 7]%Z.

Definition metrics_01 : DataFrame (F:=option Z) :=
  mkDataFrame ["subject_id"; "CSF"; "GM"; "WM"]
              [[VStr "sub-01"; VFloat (Some 36%Z); VFloat (Some 24%Z); VFloat (Some 12%Z)]].

Definition participants : DataFrame (F:=option Z) :=
  mkDataFrame ["participant_id"; "age"; "sex"]
              [[VStr "sub-01"; VInt 31; VStr "F"];
               [VStr "sub-02"; VInt 27; VStr "M"];
               [VStr "sub-03"; VInt 45; VStr "F"]].

(** A project checked out in [/work], the scripts run from there. *)
Definition disk : FS (F:=option Z) :=
  mkFS ["work"]
    (list_to_map
       [(["work"], Dir);
        (["work"; "seg_0.nii.gz"], File (Nifti pve'));
        (["work"; "seg_1.nii.gz"], File (Nifti pve));
        (["work"; "ds000246_mri"], Dir);
        (["work"; "ds000246_mri"; "participants.tsv"], File (Table participants));
        (["work"; "ds000246_mri"; "README"], File (Raw "structural scans"));
        (["work"; "ds000246_mri"; "sub-01"], Dir);
        (["work"; "ds000246_mri"; "sub-01"; "anat"], Dir);
        (["work"; "ds000246_mri"; "sub-01"; "anat"; "sub-01_T1w.nii.gz"], File (Nifti pve));
        (["work"; "ds000246_mri"; "sub-02"], Dir);
        (["work"; "ds000246_mri"; "sub-emptyroom"], Dir);
        (["work"; "ds000246_mri"; "sub-notes.txt"], File (Raw "todo"));
        (["work"; "ds000246_mri"; "derivatives"], Dir);
        (["work"; "ds000246_mri"; "derivatives"; "mri_pipeline"], Dir);
        (["work"; "ds000246_mri"; "derivatives"; "mri_pipeline"; "metrics"], Dir);
        (["work"; "ds000246_mri"; "derivatives"; "mri_pipeline"; "metrics";
          "sub-01_tissue_volumes.tsv"], File (Table metrics_01));
        (["work"; "ds000246_mri"; "derivatives"; "mri_pipeline"; "metrics";
          "sub-02_tissue_volumes.tsv"], File (Raw "\x00\x00"))]).

(** A machine with FSL but without FreeSurfer. *)
Definition which_fsl (cmd : string) : option string :=
  if String.eqb cmd "bet" then Some "/usr/local/fsl/bin/bet"
  else if String.eqb cmd "fast" then Some "/usr/local/fsl/bin/fast"
  else None.

(** The directory above [scripts/]. *)
Definition root : Path := path_of "/work".

(** A disk with nothing but the working directory. *)
Definition blank : FS (F:=option Z) := mkFS ["work"] (list_to_map [(["work"], Dir)]).

(** A dataset whose participants table was never written. *)
Definition disk_unlisted : FS (F:=option Z) :=
  mkFS ["work"]
    (list_to_map
       [(["work"], Dir);
        (["work"; "ds000246_mri"], Dir);
        (["work"; "ds000246_mri"; "sub-01"], Dir)]).

(** A participants table without the id column. *)
Definition anonymous : DataFrame (F:=option Z) :=
  mkDataFrame ["age"; "sex"] [[VInt 31; VStr "F"]].

Definition disk_anonymous : FS (F:=option Z) :=
  mkFS ["work"]
    (list_to_map
       [(["work"], Dir);
        (["work"; "ds000246_mri"], Dir);
        (["work"; "ds000246_mri"; "participants.tsv"], File (Table anonymous))]).

End example.

(** ** Further environments *)

Module scenario.
Import example.

(** A participants table with its header and no participant yet. *)
Definition unenrolled : DataFrame (F:=option Z) :=
  mkDataFrame ["participant_id"; "age"; "sex"] [].

Definition disk_unenrolled : FS (F:=option Z) :=
  mkFS ["work"]
    (list_to_map
       [(["work"], Dir);
        (["work"; "ds000246_mri"], Dir);
        (["work"; "ds000246_mri"; "participants.tsv"], File (Table unenrolled))]).





(** A dataset as downloaded, before any script has run. *)
Definition disk_raw : FS (F:=option Z) :=
  mkFS ["work"]
    (list_to_map
       [(["work"], Dir);
        (["work"; "ds000246_mri"], Dir);
        (["work"; "ds000246_mri"; "participants.tsv"], File (Table participants));
        (["work"; "ds000246_mri"; "sub-01"], Dir);
        (["work"; "ds000246_mri"; "sub-01"; "anat"], Dir);
        (["work"; "ds000246_mri"; "sub-01"; "anat"; "sub-01_T1w.nii.gz"], File (Nifti pve));
        (["work"; "ds000246_mri"; "sub-02"], Dir)]).

End scenario.

(** ** Vocabulary of the further properties *)

Section GraphVocabulary.
Import structural_pipeline.

(** An edge of the workflow graph, between node names. *)
Definition edge (wf : Workflow) (a b : string) : Prop :=
  ∃ c, c ∈ wf_connections wf ∧ name c.1.1 = a ∧ name c.1.2 = b.

(** The names of the nodes a node feeds. *)
Definition successors (wf : Workflow) (a : string) : list string :=
  omap (λ '(src, dst, _), if String.eqb (name src) a then Some (name dst) else None)
       (wf_connections wf).

(** The nodes reached from [a] along at most [fuel] edges. *)
Fixpoint reach (wf : Workflow) (fuel : nat) (a : string) : list string :=
  a :: match fuel with
       | 0 => []
       | S fuel' => flat_map (reach wf fuel') (successors wf a)
       end.

(** The (node, input field) pairs that receive a connection. *)
Definition fed_inputs (wf : Workflow) : list (string * string) :=
  flat_map (λ '(_, dst, fields), (λ '(_, inp), (name dst, inp)) <$> fields)
           (wf_connections wf).

(** The fields declared by the interfaces the script itself defines; those of
    the FSL and FreeSurfer interfaces are nipype's. *)
Definition declared_inputs (n : Node) : option (list string) :=
  match interface n with
  | IdentityInterface fields => Some fields
  | Function input_names _ _ => Some input_names
  | _ => None
  end.

Definition declared_outputs (n : Node) : option (list string) :=
  match interface n with
  | IdentityInterface fields => Some fields
  | Function _ output_names _ => Some output_names
  | _ => None
  end.

(** An input of a node has a value when the node runs: it is set on the node
    or a connection feeds it. *)
Definition supplied (wf : Workflow) (n : Node) (field : string) : Prop :=
  field ∈ (inputs n).*1 ∨ sources wf (name n) field ≠ [].

(** Every connection leads from a node to one added to the graph later. *)
Definition forward_edges (wf : Workflow) : bool :=
  forallb (λ '(src, dst, _),
             match index_of (name src) (name <$> wf_nodes wf),
                   index_of (name dst) (name <$> wf_nodes wf) with
             | Some i, Some j => i <? j
             | _, _ => false
             end)
          (wf_connections wf).

(** Every connected field of a node whose interface the script defines is
    one the interface declares. *)
Definition fields_declared (wf : Workflow) : bool :=
  forallb (λ '(src, dst, fields),
             forallb (λ '(out, inp),
                        match declared_outputs src with
                        | Some outs => bool_decide (out ∈ outs)
                        | None => true
                        end &&
                        match declared_inputs dst with
                        | Some ins => bool_decide (inp ∈ ins)
                        | None => true
                        end)
                     fields)
          (wf_connections wf).

End GraphVocabulary.

Section ReportVocabulary.
Context {F : Type} `{!Float F}.


End ReportVocabulary.

(** No component of [p] is [..].  The operating system walks a path: through
    [x/..] it needs [x] to be an existing directory, and [mkdir] with
    [parents=True] creates [x] first, while [resolve_key] cancels [x/..]
    without looking at [x].  On a path without [..] the two agree, and the
    entry the operations of the model reach is the one the operating system
    reaches. *)
Definition lexical (p : Path) : bool :=
  forallb (λ c, negb (String.eqb c "..")) (parts p).

(** A name a directory entry can have: not empty, without separator, and
    neither [.] nor [..]. *)
Definition proper_name (c : string) : bool :=
  no_slash c && is_component c && negb (String.eqb c "..").

Section WorkingDirectory.
Context {F : Type} `{!Float F}.

(** The working directory exists, with the directories above it. *)
Definition cwd_exists (fs : FS (F:=F)) : bool :=
  forallb (λ a, match entry_at fs a with Some Dir => true | _ => false end)
          (ancestors (cwd fs)).

End WorkingDirectory.

(** * Properties *)

(** ** Paths and the file system *)

Lemma normalize_snoc acc l c :
  c ≠ ".." → normalize acc (l ++ [c]) = normalize acc l ++ [c].
Proof.
  intros Hc. revert acc. induction l as [|x l IH]; intros acc; simpl.
  - destruct (String.eqb_spec c ".."); [done|]. reflexivity.
  - destruct (String.eqb x ".."); apply IH.
Qed.

Lemma path_div_name p s :
  path_of s = mkPath false [s] → p // s = mkPath (anchored p) (parts p ++ [s]).
Proof. unfold path_div. intros ->. reflexivity. Qed.

Section FSFacts.
Context {F : Type} `{!Float F}.
Implicit Types (fs : FS (F:=F)) (k q : list string) (p : Path).

Lemma resolve_key_snoc fs p c :
  c ≠ ".." →
  resolve_key fs (mkPath (anchored p) (parts p ++ [c])) = resolve_key fs p ++ [c].
Proof. intros Hc. unfold resolve_key. simpl. by apply normalize_snoc. Qed.

(** A single-component name appended to a path adds one key component. *)
Lemma resolve_key_div fs p s :
  path_of s = mkPath false [s] → s ≠ ".." →
  resolve_key fs (p // s) = resolve_key fs p ++ [s].
Proof. intros Hs Hc. rewrite path_div_name by done. by apply resolve_key_snoc. Qed.

Lemma elem_of_ancestors k a :
  a ∈ ancestors k ↔ ∃ n, 1 ≤ n ≤ length k ∧ a = take n k.
Proof.
  unfold ancestors. rewrite list_elem_of_fmap. split.
  - intros (n & -> & Hn). apply elem_of_seq in Hn. exists n. split; [lia|done].
  - intros (n & Hn & ->). exists n. split; [done|]. apply elem_of_seq. lia.
Qed.

Lemma ancestors_self k : k ≠ [] → k ∈ ancestors k.
Proof.
  intros Hk. apply elem_of_ancestors. exists (length k).
  destruct k; [done|]. simpl. split; [lia|]. by rewrite firstn_all.
Qed.

Lemma ancestors_nonempty k a : a ∈ ancestors k → a ≠ [].
Proof.
  intros (n & Hn & ->)%elem_of_ancestors. destruct k, n; simpl in *; try done; lia.
Qed.

Lemma ancestors_length k a : a ∈ ancestors k → length a ≤ length k.
Proof.
  intros (n & Hn & ->)%elem_of_ancestors. rewrite length_take. lia.
Qed.

Lemma ancestors_snoc k c : ancestors (k ++ [c]) = ancestors k ++ [k ++ [c]].
Proof.
  unfold ancestors. rewrite length_app. simpl.
  replace (length k + 1) with (S (length k)) by lia.
  rewrite seq_S, fmap_app. simpl. f_equal.
  - apply list_fmap_ext. intros i n Hn.
    apply list_elem_of_lookup_2, elem_of_seq in Hn. rewrite take_app_le by lia. done.
  - replace (S (length k)) with (length (k ++ [c])) by (rewrite length_app; simpl; lia).
    by rewrite firstn_all.
Qed.

Lemma lookup_mkdirs (m : gmap (list string) (Entry (F:=F))) l q :
  foldr (λ a m, <[a:=Dir]> m) m l !! q = if bool_decide (q ∈ l) then Some Dir else m !! q.
Proof.
  induction l as [|a l IH]; cbn [foldr].
  - case_bool_decide as E; [by apply elem_of_nil in E|done].
  - destruct (decide (a = q)) as [->|Hne].
    + clear IH. rewrite lookup_insert_eq. case_bool_decide as E; [done|]. destruct E. apply list_elem_of_here.
    + rewrite lookup_insert_ne by done. rewrite IH. clear IH.
      destruct (decide (q ∈ l)) as [Hin|Hin].
      * rewrite (bool_decide_eq_true_2 (q ∈ a :: l)) by (by right).
        by rewrite (bool_decide_eq_true_2 (q ∈ l)).
      * rewrite (bool_decide_eq_false_2 (q ∈ a :: l)) by (by intros [?|?]%elem_of_cons).
        by rewrite (bool_decide_eq_false_2 (q ∈ l)).
Qed.

Lemma mkdir_p_ok fs p :
  creatable fs p = true →
  ∃ fs', mkdir_p p fs = (inr tt, fs') ∧ cwd fs' = cwd fs ∧
    ∀ q, entry_at fs' q =
         if bool_decide (q ∈ ancestors (resolve_key fs p)) then Some Dir else entry_at fs q.
Proof.
  unfold creatable, mkdir_p. intros Hc. set (k := resolve_key fs p) in *.
  rewrite forallb_forall in Hc.
  assert (existsb (is_file fs) (removelast (ancestors k)) = false) as ->.
  { apply not_true_is_false. intros (a & Ha & Hf)%existsb_exists.
    assert (In a (ancestors k)) as Hin.
    { destruct (ancestors k) as [|x l] eqn:E; [done|].
      rewrite (app_removelast_last x) by done. apply in_or_app. by left. }
    apply Hc in Hin. rewrite Hf in Hin. done. }
  assert (is_file fs k = false) as ->.
  { destruct (decide (k = [])) as [Hk|Hk]; [by rewrite Hk|].
    assert (In k (ancestors k)) as Hin by by apply list_elem_of_In, ancestors_self.
    apply Hc in Hin. by destruct (is_file fs k). }
  eexists. split; [done|]. split; [done|]. intros q.
  destruct q as [|c q'].
  - simpl. rewrite bool_decide_eq_false_2; [done|]. intros ?%ancestors_nonempty. done.
  - simpl. apply lookup_mkdirs.
Qed.

Lemma mkdir_p_fail fs p :
  creatable fs p = false →
  ∃ e, mkdir_p p fs = (inl e, fs) ∧ (e = NotADirectoryError ∨ e = FileExistsError).
Proof.
  unfold creatable, mkdir_p. intros Hc. set (k := resolve_key fs p) in *.
  destruct (existsb (is_file fs) (removelast (ancestors k))) eqn:E1; [eauto|].
  destruct (is_file fs k) eqn:E2; [eauto|]. exfalso.
  apply not_true_iff_false in Hc. apply Hc. apply forallb_forall. intros a Ha.
  destruct (decide (k = [])) as [Hk|Hk]; [rewrite Hk in Ha; done|].
  apply list_elem_of_In, elem_of_ancestors in Ha as (n & Hn & ->).
  destruct (decide (n = length k)) as [->|Hne].
  - rewrite firstn_all. by rewrite E2.
  - apply negb_true_iff, not_true_is_false. intros Hf.
    apply not_true_iff_false in E1. apply E1. apply existsb_exists. exists (take n k).
    split; [|done]. destruct (exists_last Hk) as (k0 & c & Hk0).
    rewrite Hk0, ancestors_snoc, removelast_last. apply list_elem_of_In, elem_of_ancestors.
    rewrite Hk0, length_app in Hn, Hne. simpl in *.
    exists n. split; [lia|]. rewrite take_app_le by lia. done.
Qed.

Lemma to_csv_ok fs p df :
  entry_at fs (removelast (resolve_key fs p)) = Some Dir →
  entry_at fs (resolve_key fs p) ≠ Some Dir →
  ∃ fs', to_csv df p fs = (inr tt, fs') ∧ cwd fs' = cwd fs ∧
    ∀ q, entry_at fs' q =
         if bool_decide (q = resolve_key fs p) then Some (File (Table df)) else entry_at fs q.
Proof.
  unfold to_csv. intros Hpar Htgt. rewrite Hpar.
  set (k := resolve_key fs p) in *.
  assert (k ≠ []) as Hk by (intros E; rewrite E in Htgt; done).
  exists (mkFS (cwd fs) (<[k:=File (Table df)]> (entries fs))).
  split; [|split; [reflexivity|]].
  - destruct (entry_at fs k) as [[]|]; done.
  - intros q. destruct q as [|c q']; simpl.
    + by rewrite bool_decide_eq_false_2.
    + case_bool_decide as E.
      * rewrite <- E. by rewrite lookup_insert_eq.
      * by rewrite lookup_insert_ne.
Qed.

Lemma read_csv_table fs p df :
  entry_at fs (resolve_key fs p) = Some (File (Table df)) → read_csv p fs = (inr df, fs).
Proof. unfold read_csv. by intros ->. Qed.

End FSFacts.

(** ** Names of directory entries *)

Lemma split_on_no_slash s : no_slash s = true → split_on "/" s = [s].
Proof.
  induction s as [|c s IH]; simpl; [done|].
  intros [Hc Hs]%andb_prop. apply negb_true_iff in Hc. rewrite Hc, (IH Hs). done.
Qed.


Lemma length_append s t : String.length (s +:+ t) = String.length s + String.length t.
Proof. induction s as [|c s IH]; simpl; [done|]. by rewrite IH. Qed.



(** ** [compute_tissue_volumes] *)

Section Volumetry.
Context {F : Type} `{!Float F}.
Implicit Types (fs : FS (F:=F)) (img : Image (F:=F)).
Import structural_pipeline.







End Volumetry.

Section VolumetryMain.
Context {F : Type} `{!Float F}.
Implicit Types (fs : FS (F:=F)) (img : Image (F:=F)).
Import structural_pipeline.

Lemma resolve_key_cwd fs fs' p : cwd fs' = cwd fs → resolve_key fs' p = resolve_key fs p.
Proof. unfold resolve_key. by intros ->. Qed.

Lemma not_ancestor_child k c : k ++ [c] ∉ ancestors k.
Proof. intros H%ancestors_length. rewrite length_app in H. simpl in H. lia. Qed.

Lemma entry_at_created fs fs' k :
  (∀ q, entry_at fs' q = if bool_decide (q ∈ ancestors k) then Some Dir else entry_at fs q) →
  entry_at fs' k = Some Dir.
Proof.
  intros H. destruct (decide (k = [])) as [->|Hk]; [done|].
  rewrite H. by rewrite bool_decide_eq_true_2 by by apply ancestors_self.
Qed.







End VolumetryMain.

(** ** [get_t1w_path] *)

Section Resolver.
Context {F : Type} `{!Float F}.
Implicit Types (fs : FS (F:=F)).
Import structural_pipeline.

Lemma path_str_resolve_absolute fs p : String.prefix "/" (path_str (resolve fs p)) = true.
Proof.
  unfold path_str, resolve. cbn [parts anchored].
  destruct (resolve_key fs p) as [|c l]; [done|].
  change (String.prefix "/" (String "/" (join_with "/" (c :: l))) = true).
  cbn [String.prefix]. destruct (ascii_dec "/" "/") as [_|Hne]; [|done].
  by destruct (join_with "/" (c :: l)).
Qed.

(** C6. [get_t1w_path] returns the resolved, absolute path of
    [<bids_root>/<subject_id>/anat/<subject_id>_T1w.nii.gz] when that path
    exists and raises [FileNotFoundError] when it does not; the file system
    is left as it was.  The first half is for a path without [..]
    component, where the entry under the resolved key is the one
    [Path.exists] finds; the second half needs no such condition, an entry
    the operating system reaches being the one under the resolved key. *)
Theorem get_t1w_path_spec fs subject_id bids_root :
  let t1w := path_of bids_root // subject_id // "anat" // (subject_id +:+ "_T1w.nii.gz") in
  (lexical t1w = true → exists_ fs t1w = true →
     get_t1w_path subject_id bids_root fs = (inr (path_str (resolve fs t1w)), fs) ∧
     String.prefix "/" (path_str (resolve fs t1w)) = true) ∧
  (exists_ fs t1w = false →
     get_t1w_path subject_id bids_root fs = (inl FileNotFoundError, fs)).
Proof.
  intros t1w. unfold get_t1w_path, bind, gets, raise, ret. fold t1w.
  split; [intros _|]; intros ->; cbn [negb]; [|done].
  split; [done|]. apply path_str_resolve_absolute.
Qed.

End Resolver.

(** ** The wiring of the workflow *)

Section Wiring.
Import structural_pipeline.
Implicit Types (which : string → option string) (subjects : list string).

Lemma HAS_true which cmd : HAS which cmd = true ↔ which cmd ≠ None.
Proof. unfold HAS. apply bool_decide_eq_true. Qed.

Lemma HAS_cases which cmd :
  (which cmd ≠ None ∧ HAS which cmd = true) ∨ (which cmd = None ∧ HAS which cmd = false).
Proof.
  unfold HAS. destruct (which cmd) eqn:E; [left|right]; split; try done.
Qed.

(** Case analysis on the availability of the three tools. *)
Ltac tool_cases which :=
  destruct (HAS_cases which "bet") as [[Hbet Ebet]|[Hbet Ebet]],
           (HAS_cases which "fast") as [[Hfast Efast]|[Hfast Efast]],
           (HAS_cases which "recon-all") as [[Hrecon Erecon]|[Hrecon Erecon]];
  unfold workflow, bet, fast, reconall; rewrite Ebet, Efast, Erecon.

Lemma is_destination wf cmd :
  (∃ c, c ∈ wf_connections wf ∧ command c.1.2 = Some cmd) ↔
  existsb (λ c, bool_decide (command c.1.2 = Some cmd)) (wf_connections wf) = true.
Proof.
  rewrite existsb_exists. split; intros (c & Hin & Hc); exists c.
  - split; [by apply list_elem_of_In|by apply bool_decide_eq_true].
  - split; [by apply list_elem_of_In|by apply bool_decide_eq_true in Hc].
Qed.

Lemma is_node wf cmd :
  (∃ n, n ∈ wf_nodes wf ∧ command n = Some cmd) ↔
  existsb (λ n, bool_decide (command n = Some cmd)) (wf_nodes wf) = true.
Proof.
  rewrite existsb_exists. split; intros (c & Hin & Hc); exists c.
  - split; [by apply list_elem_of_In|by apply bool_decide_eq_true].
  - split; [by apply list_elem_of_In|by apply bool_decide_eq_true in Hc].
Qed.

(** C2. A node for [bet], [fast] or [recon-all] is created, and is the
    destination of a connection of the workflow, exactly when the command is
    found on the PATH; the workflow has at most three nodes that run an
    external tool. *)
Theorem tool_nodes_iff_available which subjects bids_root_resolved output_dir :
  let wf := workflow which subjects bids_root_resolved output_dir in
  (is_Some (bet which) ↔ which "bet" ≠ None) ∧
  (is_Some (fast which) ↔ which "fast" ≠ None) ∧
  (∀ d, is_Some (reconall which d) ↔ which "recon-all" ≠ None) ∧
  (∀ cmd, cmd ∈ ["bet"; "fast"; "recon-all"] →
     ((∃ c, c ∈ wf_connections wf ∧ command c.1.2 = Some cmd) ↔ which cmd ≠ None) ∧
     ((∃ n, n ∈ wf_nodes wf ∧ command n = Some cmd) ↔ which cmd ≠ None)) ∧
  length (List.filter (λ n, bool_decide (is_Some (command n))) (wf_nodes wf)) ≤ 3.
Proof.
  intros wf. subst wf.
  split; [|split; [|split]].
  - unfold bet. destruct (HAS_cases which "bet") as [[? ->]|[? ->]]; split; try done;
      by intros [? ?].
  - unfold fast. destruct (HAS_cases which "fast") as [[? ->]|[? ->]]; split; try done;
      by intros [? ?].
  - intros d. unfold reconall.
    destruct (HAS_cases which "recon-all") as [[? ->]|[? ->]]; split; try done;
      by intros [? ?].
  - split.
    + intros cmd Hcmd. rewrite is_destination, is_node.
      assert (cmd = "bet" ∨ cmd = "fast" ∨ cmd = "recon-all") as Hc.
      { rewrite !elem_of_cons in Hcmd. destruct Hcmd as [?|[?|[?|H]]]; auto.
        by apply elem_of_nil in H. }
      destruct Hc as [-> | [-> | ->]]; tool_cases which;
        match goal with
        | |- (?a = true ↔ ?P) ∧ (?b = true ↔ ?Q) =>
            let a' := eval vm_compute in a in
            let b' := eval vm_compute in b in
            change ((a' = true ↔ P) ∧ (b' = true ↔ Q))
        end; split; split; done.
    + tool_cases which; vm_compute; lia.
Qed.

(** C4. When [fast] is available its [in_files] input comes from the
    [out_file] of [bet] if [bet] is available and from the resolved T1w path
    otherwise, and its [partial_volume_files] feed [seg_files] of the volume
    node; the T1w resolver and the volume node always receive [subject_id]
    from the input node, and without [fast] nothing is connected to
    [seg_files]. *)
Theorem wiring_spec which subjects bids_root_resolved output_dir :
  let wf := workflow which subjects bids_root_resolved output_dir in
  let inputnode := inputnode subjects in
  let t1w_resolver := t1w_resolver bids_root_resolved in
  let volume_node := volume_node output_dir in
  (∀ fast_node, fast which = Some fast_node →
     (∀ bet_node, bet which = Some bet_node →
        sources wf (name fast_node) "in_files" = [(bet_node, "out_file")]) ∧
     (bet which = None →
        sources wf (name fast_node) "in_files" = [(t1w_resolver, "t1w")]) ∧
     sources wf (name volume_node) "seg_files" = [(fast_node, "partial_volume_files")]) ∧
  (fast which = None → sources wf (name volume_node) "seg_files" = []) ∧
  sources wf (name volume_node) "subject_id" = [(inputnode, "subject_id")] ∧
  sources wf (name t1w_resolver) "subject_id" = [(inputnode, "subject_id")].
Proof.
  intros wf inputnode t1w_resolver volume_node.
  subst wf inputnode t1w_resolver volume_node.
  split; [|split; [|split]].
  - intros fast_node Hf. split; [|split].
    + intros bet_node Hb. revert Hf Hb. tool_cases which; intros; by simplify_eq.
    + intros Hb. revert Hf Hb. tool_cases which; intros; by simplify_eq.
    + revert Hf. tool_cases which; intros; by simplify_eq.
  - intros Hf. revert Hf. tool_cases which; intros; by simplify_eq.
  - tool_cases which; reflexivity.
  - tool_cases which; reflexivity.
Qed.

End Wiring.

(** ** Subject discovery *)

Lemma fnmatch_star s :
  (fix star (s : string) : bool :=
     fnmatch "" s || match s with
                     | EmptyString => false
                     | String _ s' => star s'
                     end) s = true.
Proof. induction s as [|c s IH]; [done|]. by rewrite IH. Qed.

(** The pattern [sub-*] matches the names that start with [sub-]. *)
Lemma fnmatch_sub s : fnmatch "sub-*" s = true ↔ ∃ rest, s = "sub-" +:+ rest.
Proof.
  split.
  - destruct s as [|c1 [|c2 [|c3 [|c4 s]]]]; cbn -[Ascii.eqb]; try done;
      rewrite ?andb_false_r; try done.
    intros H. repeat (apply andb_prop in H as [?%Ascii.eqb_eq H]). subst. by exists s.
  - intros [rest ->]. cbn -[fnmatch_star]. apply fnmatch_star.
Qed.

Lemma NoDup_omap {A B} (f : A → option B) (l : list A) :
  (∀ x y z, x ∈ l → y ∈ l → f x = Some z → f y = Some z → x = y) →
  NoDup l → NoDup (omap f l).
Proof.
  intros Hinj Hl. induction Hl as [|x l Hx Hl IH]; cbn [omap list_omap]; [constructor|].
  assert (NoDup (omap f l)) as IH'.
  { apply IH. intros ???????. eapply Hinj; eauto using list_elem_of_further. }
  destruct (f x) as [z|] eqn:Hz; [|exact IH']. constructor; [|exact IH'].
  intros (y & Hy & Hfy)%list_elem_of_omap.
  assert (x = y) as -> by (eapply Hinj; eauto using list_elem_of_here, list_elem_of_further).
  done.
Qed.

Lemma filter_fmap_names {A B} (P : B → bool) (f : A → B) (g : B → A) (l : list A) :
  (∀ x, g (f x) = x) →
  g <$> List.filter P (f <$> l) = List.filter (λ x, P (f x)) l.
Proof.
  intros Hg. induction l as [|x l IH]; cbn; [done|].
  destruct (P (f x)); cbn; by rewrite ?Hg, IH.
Qed.

Lemma StronglySorted_filter {A} (R : relation A) (P : A → bool) (l : list A) :
  StronglySorted R l → StronglySorted R (List.filter P l).
Proof.
  induction 1 as [|x l Hl IH Hx]; cbn; [constructor|].
  destruct (P x); [|done]. constructor; [done|].
  rewrite List.Forall_forall in *. intros y [Hy _]%filter_In. by apply Hx.
Qed.

Section Discovery.
Context {F : Type} `{!Float F}.
Implicit Types (fs : FS (F:=F)).
Import structural_pipeline.

Lemma child_name_Some d k name : child_name d k = Some name ↔ k = d ++ [name].
Proof.
  unfold child_name. split.
  - destruct (reverse k) as [|n rd] eqn:Hrev; [done|].
    case_bool_decide as Hd; [|done]. intros [= ->]. subst d.
    by rewrite <- reverse_cons, <- Hrev, reverse_involutive.
  - intros ->. rewrite reverse_snoc. by rewrite reverse_involutive, bool_decide_eq_true_2.
Qed.

Lemma elem_of_scandir fs d name :
  name ∈ scandir fs d ↔ is_Some (entries fs !! (d ++ [name])).
Proof.
  unfold scandir. rewrite list_elem_of_omap. split.
  - intros (k & Hk & ->%child_name_Some).
    apply list_elem_of_fmap in Hk as ([k' e] & -> & Hk).
    apply elem_of_map_to_list in Hk. eauto.
  - intros [e He]. exists (d ++ [name]). split; [|by apply child_name_Some].
    apply list_elem_of_fmap. exists (d ++ [name], e). split; [done|].
    by apply elem_of_map_to_list.
Qed.

(** A directory lists each name once. *)
Lemma NoDup_scandir fs d : NoDup (scandir fs d).
Proof.
  unfold scandir. apply NoDup_omap; [|apply NoDup_fst_map_to_list].
  intros k1 k2 n _ _ H1%child_name_Some H2%child_name_Some. congruence.
Qed.

(** The names yielded by [glob], filtered by a test on the child path. *)
Lemma glob_names fs p pattern (P : Path → bool) :
  path_name <$> List.filter P (glob fs p pattern) =
  List.filter (λ name, P (mkPath (anchored p) (parts p ++ [name])))
    (List.filter (λ name, fnmatch pattern name) (scandir fs (resolve_key fs p))).
Proof.
  unfold glob. apply filter_fmap_names. intros name. unfold path_name. cbn.
  apply last_last.
Qed.

Lemma resolve_key_bids_root fs : resolve_key fs bids_root = cwd fs ++ ["ds000246_mri"].
Proof. reflexivity. Qed.

Lemma is_dir_child fs p name :
  name ≠ ".." →
  is_dir fs (mkPath (anchored p) (parts p ++ [name])) = true ↔
  entry_at fs (resolve_key fs p ++ [name]) = Some Dir.
Proof.
  intros Hn. unfold is_dir. rewrite resolve_key_snoc by done.
  by destruct (entry_at fs (resolve_key fs p ++ [name])) as [[]|].
Qed.

Lemma entry_at_snoc fs d name : entry_at fs (d ++ [name]) = entries fs !! (d ++ [name]).
Proof. by destruct d. Qed.

Lemma elem_of_all_subjects fs sid :
  sid ∈ all_subjects fs ↔
  (∃ rest, sid = "sub-" +:+ rest) ∧
  entry_at fs (resolve_key fs bids_root ++ [sid]) = Some Dir.
Proof.
  unfold all_subjects. rewrite merge_sort_Permutation, glob_names.
  rewrite !list_elem_of_In, !filter_In, <- list_elem_of_In, fnmatch_sub, elem_of_scandir.
  split.
  - intros [[_ Hsub] Hdir]. split; [done|]. apply is_dir_child; [|done].
    destruct Hsub as [rest ->]. done.
  - intros [Hsub Hdir]. split; [split; [|done]|].
    + rewrite <- entry_at_snoc, Hdir. eauto.
    + apply is_dir_child; [|done]. destruct Hsub as [rest ->]. done.
Qed.

Lemma NoDup_all_subjects fs : NoDup (all_subjects fs).
Proof.
  unfold all_subjects. rewrite merge_sort_Permutation, glob_names.
  apply NoDup_ListNoDup. do 2 apply List.NoDup_filter.
  apply NoDup_ListNoDup, NoDup_scandir.
Qed.

Lemma sorted_all_subjects fs : StronglySorted String.le (all_subjects fs).
Proof. apply StronglySorted_merge_sort; apply _. Qed.

End Discovery.

(** ** Discovered subjects *)

Section Subjects.
Context {F : Type} `{!Float F}.
Implicit Types (fs : FS (F:=F)).
Import structural_pipeline.

(** C3. The discovered subjects are exactly the names starting with [sub-]
    of the directories in the BIDS root under which
    [anat/<subject>_T1w.nii.gz] exists; the list is sorted and has no
    duplicates; when it is empty the script raises [RuntimeError] and builds
    no workflow.  [fs] is the file system at discovery time, once the output
    directories are set up. *)
Theorem subjects_spec fs :
  (∀ sid, sid ∈ subjects fs ↔
     (∃ rest, sid = "sub-" +:+ rest) ∧
     entry_at fs (resolve_key fs bids_root ++ [sid]) = Some Dir ∧
     exists_ fs (bids_root // sid // "anat" // (sid +:+ "_T1w.nii.gz")) = true) ∧
  StronglySorted String.le (subjects fs) ∧
  NoDup (subjects fs) ∧
  (∀ which fs0, (setup fs0).1 = inr tt → fs = (setup fs0).2 → subjects fs = [] →
     script which fs0 = (inl RuntimeError, fs)).
Proof.
  split; [|split; [|split]].
  - intros sid. unfold subjects.
    rewrite list_elem_of_In, filter_In, <- list_elem_of_In, elem_of_all_subjects.
    unfold t1_candidate. tauto.
  - apply StronglySorted_filter, sorted_all_subjects.
  - apply NoDup_ListNoDup, List.NoDup_filter, NoDup_ListNoDup, NoDup_all_subjects.
  - intros which fs0 Hsetup -> Hnone. unfold script, bind.
    destruct (setup fs0) as [[e|[]] fs1]; [done|]. cbn [snd] in *.
    unfold gets. by rewrite Hnone.
Qed.

(** With at least one subject the script builds the workflow, iterating the
    input node over the discovered subjects. *)
Lemma script_builds fs which fs0 :
  (setup fs0).1 = inr tt → fs = (setup fs0).2 → subjects fs ≠ [] →
  script which fs0 =
    (inr (workflow which (subjects fs) (path_str (resolve fs bids_root))
            (path_str (resolve fs (pipeline_dir // "metrics")))), fs).
Proof.
  intros Hsetup -> Hsome. unfold script, bind.
  destruct (setup fs0) as [[e|[]] fs1]; [done|]. cbn [snd] in *. unfold gets.
  by rewrite bool_decide_eq_false_2.
Qed.

End Subjects.

(** ** Tables built from records *)

Section Tables.
Context {F : Type} `{!Float F}.
Implicit Types (d : dict (F:=F)) (records : list (dict (F:=F))).

Lemma index_of_Some k l i : index_of k l = Some i → l !! i = Some k.
Proof.
  revert i. induction l as [|x l IH]; intros i; cbn; [done|].
  destruct (String.eqb_spec x k) as [->|Hne].
  - by intros [= <-].
  - destruct (index_of k l) as [j|]; [|done]. intros [= <-]. by apply IH.
Qed.

Lemma index_of_None k l : index_of k l = None ↔ k ∉ l.
Proof.
  induction l as [|x l IH]; cbn.
  - split; [intros _; apply not_elem_of_nil|done].
  - rewrite not_elem_of_cons. destruct (String.eqb_spec x k) as [->|Hne].
    + split; [done|]. by intros [? _].
    + destruct (index_of k l) as [j|]; cbn.
      * split; [done|]. intros [_ Hk]. by apply IH in Hk.
      * split; [|done]. intros _. split; [done|]. by apply IH.
Qed.




Lemma series_getitem_missing (r : Series (F:=F)) k : k ∉ r.1 → series_getitem r k = inl KeyError.
Proof. unfold series_getitem. intros Hk%index_of_None. by rewrite Hk. Qed.

Lemma dict_get_Some_keys d k v : dict_get k d = Some v → k ∈ dict_keys d.
Proof.
  induction d as [|[k' v'] d IH]; cbn; [done|].
  destruct (String.eqb_spec k' k) as [->|Hne]; intros Hv.
  - apply list_elem_of_here.
  - by apply list_elem_of_further, IH.
Qed.

Lemma elem_of_add_keys cols d k : k ∈ add_keys cols d ↔ k ∈ cols ∨ k ∈ dict_keys d.
Proof.
  unfold add_keys. generalize (dict_keys d) as ks. intros ks. revert cols.
  induction ks as [|x ks IH]; intros cols; cbn [fold_left].
  - rewrite elem_of_nil. tauto.
  - rewrite IH, elem_of_cons. case_bool_decide as Hx.
    + split; [tauto|]. intros [?|[->|?]]; tauto.
    + rewrite elem_of_app, list_elem_of_singleton. tauto.
Qed.

Lemma elem_of_columns records cols k :
  k ∈ fold_left add_keys records cols ↔ k ∈ cols ∨ ∃ d, d ∈ records ∧ k ∈ dict_keys d.
Proof.
  revert cols. induction records as [|d records IH]; intros cols; cbn [fold_left].
  - split; [tauto|]. intros [?|(d & Hd & _)]; [done|]. by apply elem_of_nil in Hd.
  - rewrite IH, elem_of_add_keys. split.
    + intros [[?|?]|(d' & Hd' & ?)]; eauto using list_elem_of_here, list_elem_of_further.
    + intros [?|(d' & [->|Hd']%elem_of_cons & ?)]; eauto.
Qed.

(** A cell of the table is the record's value for a column of the table,
    NaN when the record lacks the key. *)
Lemma cell_DataFrame_of records i d k :
  records !! i = Some d →
  cell (DataFrame_of records) i k =
    if bool_decide (k ∈ columns (DataFrame_of records))
    then Some (default NaN (dict_get k d)) else None.
Proof.
  intros Hd. unfold cell, DataFrame_of. cbn [rows columns].
  rewrite list_lookup_fmap, Hd. cbn.
  destruct (index_of k (fold_left add_keys records [])) as [j|] eqn:Hj; cbn.
  - pose proof (index_of_Some _ _ _ Hj) as Hk.
    rewrite bool_decide_eq_true_2 by by eapply list_elem_of_lookup_2.
    by rewrite nth_lookup, list_lookup_fmap, Hk.
  - apply index_of_None in Hj. by rewrite bool_decide_eq_false_2.
Qed.

Lemma cell_of_record records i d k v :
  records !! i = Some d → dict_get k d = Some v →
  cell (DataFrame_of records) i k = Some v.
Proof.
  intros Hd Hv. rewrite (cell_DataFrame_of _ _ _ _ Hd), Hv.
  rewrite bool_decide_eq_true_2; [done|].
  apply elem_of_columns. right. exists d.
  eauto using list_elem_of_lookup_2, dict_get_Some_keys.
Qed.

Lemma cell_of_missing records i d k :
  records !! i = Some d → dict_get k d = None →
  cell (DataFrame_of records) i k = None ∨ cell (DataFrame_of records) i k = Some NaN.
Proof.
  intros Hd Hv. rewrite (cell_DataFrame_of _ _ _ _ Hd), Hv.
  case_bool_decide; auto.
Qed.



End Tables.

(** ** The summary script *)

Section Summary.
Context {F : Type} `{!Float F}.
Variable PROJECT_ROOT : Path.
Implicit Types (fs : FS (F:=F)) (row : Series (F:=F)) (d : dict (F:=F)).
Import summarize_dataset.

Lemma read_csv_table_at fs p df : table_at fs p = Some df → read_csv p fs = (inr df, fs).
Proof.
  unfold table_at, read_csv.
  destruct (entry_at fs (resolve_key fs p)) as [[[]|]|]; intros; simplify_eq; done.
Qed.

Lemma read_csv_state fs p : (read_csv p fs).2 = fs.
Proof. unfold read_csv. by destruct (entry_at fs (resolve_key fs p)) as [[[]|]|]. Qed.

(** Whether the [try] body raises does not depend on the record it fills. *)
Lemma read_metrics_outcome fs tsv d d' :
  (read_metrics tsv (fs, d)).1 = (read_metrics tsv (fs, d')).1.
Proof.
  unfold read_metrics, read_volume, bind, on_fst, lift, modify. cbn [fst snd].
  destruct (read_csv tsv fs) as [[e|mdf] fs']; [done|].
  destruct (iloc mdf 0) as [e|r0]; [done|].
  destruct (float_of (series_get r0 "CSF" NaN)); [done|].
  destruct (float_of (series_get r0 "GM" NaN)); [done|].
  destruct (float_of (series_get r0 "WM" NaN)); done.
Qed.

(** The [try] statement on the record of a subject whose metrics file
    exists: it always completes, leaving three more entries. *)
Lemma parse_metrics_run fs tsv (sub_id age sex hand : value (F:=F)) :
  let subject_data :=
    [("participant_id", sub_id); ("age", age); ("sex", sex); ("dominant_hand", hand);
     ("metrics_exists", VBool true)] in
  ∃ csf gm wm,
    with_local subject_data (parse_metrics tsv) fs =
      (inr (subject_data ++ [("CSF", csf); ("GM", gm); ("WM", wm)]), fs) ∧
    (∀ d e, (read_metrics tsv (fs, d)).1 = inl e →
       csf = VStr "n/a" ∧ gm = VStr "n/a" ∧ wm = VStr "n/a") ∧
    (∀ mdf r0 x y z,
       table_at fs tsv = Some mdf → iloc mdf 0 = inr r0 →
       float_of (series_get r0 "CSF" NaN) = inr x →
       float_of (series_get r0 "GM" NaN) = inr y →
       float_of (series_get r0 "WM" NaN) = inr z →
       csf = VFloat x ∧ gm = VFloat y ∧ wm = VFloat z).
Proof.
  intros subject_data.
  assert (∀ mdf, table_at fs tsv = Some mdf → read_csv tsv fs = (inr mdf, fs)) as Htab
    by (intros; by apply read_csv_table_at).
  pose proof (read_csv_state fs tsv) as Hst.
  pose proof (λ d, read_metrics_outcome fs tsv d subject_data) as Hout.
  unfold with_local, parse_metrics, try_except, metrics_unreadable, set_na.
  unfold read_metrics, read_volume, bind, on_fst, lift, modify in *. cbn [fst snd] in *.
  destruct (read_csv tsv fs) as [[e|mdf] fs'] eqn:Hr; cbn [snd] in Hst; subst fs'.
  { exists (VStr "n/a"), (VStr "n/a"), (VStr "n/a"). split; [done|]. split; [done|].
    intros mdf ???? Hm. apply Htab in Hm. done. }
  destruct (iloc mdf 0) as [e|r0] eqn:Hi.
  { exists (VStr "n/a"), (VStr "n/a"), (VStr "n/a"). split; [done|]. split; [done|].
    intros mdf' ???? Hm. apply Htab in Hm. simplify_eq. congruence. }
  destruct (float_of (series_get r0 "CSF" NaN)) as [e|x] eqn:Hx.
  { exists (VStr "n/a"), (VStr "n/a"), (VStr "n/a"). split; [done|]. split; [done|].
    intros mdf' ???? Hm. apply Htab in Hm. simplify_eq. congruence. }
  destruct (float_of (series_get r0 "GM" NaN)) as [e|y] eqn:Hy.
  { exists (VStr "n/a"), (VStr "n/a"), (VStr "n/a"). split; [done|]. split; [done|].
    intros mdf' ???? Hm. apply Htab in Hm. simplify_eq. congruence. }
  destruct (float_of (series_get r0 "WM" NaN)) as [e|z] eqn:Hz.
  { exists (VStr "n/a"), (VStr "n/a"), (VStr "n/a"). split; [done|]. split; [done|].
    intros mdf' ???? Hm. apply Htab in Hm. simplify_eq. congruence. }
  exists (VFloat x), (VFloat y), (VFloat z). split; [done|]. split.
  - intros d e He. rewrite Hout in He. done.
  - intros mdf' ???? Hm. apply Htab in Hm. simplify_eq. intros H1 H2 H3 H4.
    rewrite Hi in H1. injection H1 as <-. rewrite Hx in H2. rewrite Hy in H3.
    rewrite Hz in H4. by simplify_eq.
Qed.

Lemma subject_row_run fs row sub_id :
  series_getitem row "participant_id" = inr sub_id →
  ∃ d, subject_row PROJECT_ROOT row fs = (inr d, fs) ∧ summary_record PROJECT_ROOT fs row d.
Proof.
  intros Hid. unfold subject_row, bind, lift, gets. rewrite Hid. cbn [dict_getitem dict_get].
  cbn -[metrics_tsv series_get with_local parse_metrics].
  destruct (exists_ fs (metrics_tsv PROJECT_ROOT sub_id)) eqn:Hex.
  - destruct (parse_metrics_run fs (metrics_tsv PROJECT_ROOT sub_id) sub_id
                (series_get row "age" (VStr "n/a")) (series_get row "sex" (VStr "n/a"))
                (series_get row "dominant_hand" (VStr "n/a")))
      as (csf & gm & wm & -> & Hfail & Hok).
    eexists. split; [reflexivity|]. split; try done; [by eexists|].
    intros s Hs. rewrite Hid in Hs. injection Hs as <-. rewrite Hex.
    split; [done|]. split; [done|]. split; [done|]. split; [done|]. split.
    + intros _ d0 e He. destruct (Hfail d0 e He) as (-> & -> & ->). done.
    + intros _ mdf r0 x y z ? ? ? ? ?.
      destruct (Hok mdf r0 x y z) as (-> & -> & ->); done.
  - eexists. split; [reflexivity|]. split; try done; [by eexists|].
    intros s Hs. rewrite Hid in Hs. injection Hs as <-. rewrite Hex.
    repeat split; done.
Qed.

Lemma subject_row_inv fs row d fs' :
  subject_row PROJECT_ROOT row fs = (inr d, fs') →
  fs' = fs ∧ summary_record PROJECT_ROOT fs row d ∧ "participant_id" ∈ row.1.
Proof.
  intros Hrun. destruct (series_getitem row "participant_id") as [e|sub_id] eqn:Hid.
  - unfold subject_row, bind, lift in Hrun. by rewrite Hid in Hrun.
  - destruct (subject_row_run fs row sub_id Hid) as (d' & Hrun' & Hrec).
    rewrite Hrun' in Hrun. injection Hrun as <- <-. split; [done|]. split; [done|].
    unfold series_getitem in Hid.
    destruct (index_of "participant_id" row.1) as [j|] eqn:Hj; [|done].
    eapply list_elem_of_lookup_2, index_of_Some, Hj.
Qed.

Lemma mapM_subject_row_inv fs l recs fs' :
  mapM (subject_row PROJECT_ROOT) l fs = (inr recs, fs') →
  fs' = fs ∧ Forall2 (summary_record PROJECT_ROOT fs) l recs.
Proof.
  revert recs fs'. induction l as [|row l IH]; intros recs fs'; cbn [mapM].
  - intros [= <- <-]. split; [done|constructor].
  - unfold bind.
    destruct (subject_row PROJECT_ROOT row fs) as [[e|d] fs1] eqn:Hrow; [done|].
    apply subject_row_inv in Hrow as (-> & Hrec & _).
    destruct (mapM (subject_row PROJECT_ROOT) l fs) as [[e|ds] fs2] eqn:Hl; [done|].
    destruct (IH ds fs2 eq_refl) as [-> HF]. intros [= <- <-].
    split; [done|]. by constructor.
Qed.

Lemma mkdir_p_inv fs p fs1 :
  mkdir_p p fs = (inr tt, fs1) →
  creatable fs p = true ∧ cwd fs1 = cwd fs ∧
  ∀ q, entry_at fs1 q =
       if bool_decide (q ∈ ancestors (resolve_key fs p)) then Some Dir else entry_at fs q.
Proof.
  intros Hmk. destruct (creatable fs p) eqn:Hc.
  - destruct (mkdir_p_ok fs p Hc) as (fs' & Hmk' & ? & ?). rewrite Hmk in Hmk'.
    by injection Hmk' as ->.
  - destruct (mkdir_p_fail fs p Hc) as (e & Hmk' & _). by rewrite Hmk in Hmk'.
Qed.

Lemma key_SUMMARY_DIR fs :
  resolve_key fs (SUMMARY_DIR PROJECT_ROOT) =
  resolve_key fs (BIDS_ROOT PROJECT_ROOT) ++ ["derivatives"; "mri_pipeline"; "summary"].
Proof.
  unfold SUMMARY_DIR, DERIVATIVES_DIR. rewrite !resolve_key_div by done.
  by rewrite <- !app_assoc.
Qed.

Lemma key_OUTPUT_CSV fs :
  resolve_key fs (OUTPUT_CSV PROJECT_ROOT) =
  resolve_key fs (SUMMARY_DIR PROJECT_ROOT) ++ ["dataset_summary.csv"].
Proof. unfold OUTPUT_CSV. by rewrite resolve_key_div. Qed.

Lemma key_PARTICIPANTS_FILE fs :
  resolve_key fs (PARTICIPANTS_FILE PROJECT_ROOT) =
  resolve_key fs (BIDS_ROOT PROJECT_ROOT) ++ ["participants.tsv"].
Proof. unfold PARTICIPANTS_FILE. by rewrite resolve_key_div. Qed.

(** Creating the summary directory creates neither the participants table
    nor the summary table. *)
Lemma mkdir_summary_frame fs fs1 :
  mkdir_p (SUMMARY_DIR PROJECT_ROOT) fs = (inr tt, fs1) →
  is_dir fs1 (SUMMARY_DIR PROJECT_ROOT) = true ∧
  exists_ fs1 (PARTICIPANTS_FILE PROJECT_ROOT) = exists_ fs (PARTICIPANTS_FILE PROJECT_ROOT) ∧
  entry_at fs1 (resolve_key fs1 (OUTPUT_CSV PROJECT_ROOT)) =
    entry_at fs (resolve_key fs (OUTPUT_CSV PROJECT_ROOT)).
Proof.
  intros (_ & Hcwd & Hent)%mkdir_p_inv. split; [|split].
  - unfold is_dir. rewrite (resolve_key_cwd fs fs1) by done.
    by rewrite (entry_at_created fs fs1 _ Hent).
  - unfold exists_. rewrite (resolve_key_cwd fs fs1) by done. rewrite Hent.
    rewrite (bool_decide_eq_false_2 (_ ∈ _)); [done|].
    rewrite key_PARTICIPANTS_FILE, key_SUMMARY_DIR.
    set (kb := resolve_key fs (BIDS_ROOT PROJECT_ROOT)).
    intros (n & Hn & Hk)%elem_of_ancestors.
    assert (n = length kb + 1) as ->.
    { apply (f_equal length) in Hk. rewrite length_take, !length_app in Hk.
      rewrite length_app in Hn. simpl in *. lia. }
    rewrite take_app_ge in Hk by lia. apply app_inv_head in Hk.
    replace (length kb + 1 - length kb) with 1 in Hk by lia. done.
  - rewrite (resolve_key_cwd fs fs1) by done. rewrite Hent.
    rewrite key_OUTPUT_CSV. by rewrite bool_decide_eq_false_2 by apply not_ancestor_child.
Qed.


Lemma collect_rows_inv fs fs' records :
  collect_rows PROJECT_ROOT fs = (inr records, fs') →
  ∃ participants,
    mkdir_p (SUMMARY_DIR PROJECT_ROOT) fs = (inr tt, fs') ∧
    table_at fs' (PARTICIPANTS_FILE PROJECT_ROOT) = Some participants ∧
    Forall2 (summary_record PROJECT_ROOT fs') (iterrows participants) records.
Proof.
  unfold collect_rows, bind, gets, raise.
  destruct (mkdir_p (SUMMARY_DIR PROJECT_ROOT) fs) as [[e|[]] fs1] eqn:Hmk; [done|].
  destruct (exists_ fs1 (PARTICIPANTS_FILE PROJECT_ROOT)); cbn [negb]; [|done].
  pose proof (read_csv_state fs1 (PARTICIPANTS_FILE PROJECT_ROOT)) as Hst.
  destruct (read_csv (PARTICIPANTS_FILE PROJECT_ROOT) fs1) as [[e|participants] fs2] eqn:Hr;
    [done|].
  cbn in Hst. subst fs2. intros [-> HF]%mapM_subject_row_inv.
  exists participants. split; [done|]. split; [|done].
  unfold read_csv, table_at in *.
  by destruct (entry_at fs1 (resolve_key fs1 (PARTICIPANTS_FILE PROJECT_ROOT)))
    as [[[]|]|]; simplify_eq.
Qed.

(** Once the rows are collected the script writes their table. *)
Lemma script_writes fs fs1 records :
  collect_rows PROJECT_ROOT fs = (inr records, fs1) →
  is_dir fs1 (OUTPUT_CSV PROJECT_ROOT) = false →
  table_at (script PROJECT_ROOT fs).2 (OUTPUT_CSV PROJECT_ROOT) = Some (DataFrame_of records) ∧
  (records ≠ [] → (script PROJECT_ROOT fs).1 = inr tt).
Proof.
  intros Hrows Hfree.
  destruct (collect_rows_inv _ _ _ Hrows) as (participants & Hmk & _ & HF).
  apply mkdir_summary_frame in Hmk as (Hdir & _ & _).
  destruct (to_csv_ok fs1 (OUTPUT_CSV PROJECT_ROOT) (DataFrame_of records))
    as (fs2 & Hcsv & Hcwd & Hent).
  { rewrite key_OUTPUT_CSV, removelast_last. unfold is_dir in Hdir.
    by destruct (entry_at fs1 (resolve_key fs1 (SUMMARY_DIR PROJECT_ROOT))) as [[]|]. }
  { unfold is_dir in Hfree.
    by destruct (entry_at fs1 (resolve_key fs1 (OUTPUT_CSV PROJECT_ROOT))) as [[]|]. }
  unfold script, bind. rewrite Hrows, Hcsv. unfold lift, ret.
  assert (table_at fs2 (OUTPUT_CSV PROJECT_ROOT) = Some (DataFrame_of records)) as Htab.
  { unfold table_at. rewrite (resolve_key_cwd fs1 fs2) by done. rewrite Hent.
    by rewrite bool_decide_eq_true_2. }
  split.
  - by destruct (df_getitem (DataFrame_of records) "qc_pass").
  - intros Hne. unfold df_getitem.
    destruct (index_of "qc_pass" (columns (DataFrame_of records))) as [j|] eqn:Hj; [done|].
    exfalso. apply index_of_None in Hj. apply Hj. apply elem_of_columns. right.
    destruct records as [|d records']; [done|].
    apply Forall2_cons_inv_r in HF as (row & rows' & Hrec & _ & Hrows').
    exists d. split; [apply list_elem_of_here|].
    destruct (rec_id _ _ _ _ Hrec) as [sub_id Hid].
    destruct (rec_exists _ _ _ _ Hrec sub_id Hid) as (_ & _ & Hq & _).
    by eapply dict_get_Some_keys.
Qed.

Lemma mapM_error {S A B} (f : A → ST S B) (P : Exn → Prop) l s e s' :
  (∀ x s e s', f x s = (inl e, s') → P e) → mapM f l s = (inl e, s') → P e.
Proof.
  intros Hf. revert s. induction l as [|x l IH]; intros s; cbn [mapM]; [done|].
  unfold bind. destruct (f x s) as [[e1|y] s1] eqn:Hx.
  - intros [= <- <-]. eauto.
  - destruct (mapM f l s1) as [[e2|ys] s2] eqn:Hl; [|done].
    intros [= <- <-]. eauto.
Qed.

(** The loop body can only raise for a missing id column. *)
Lemma subject_row_error fs row e fs' :
  subject_row PROJECT_ROOT row fs = (inl e, fs') → e = KeyError.
Proof.
  intros Hrun. destruct (series_getitem row "participant_id") as [e0|sub_id] eqn:Hid.
  - unfold subject_row, bind, lift in Hrun. rewrite Hid in Hrun. injection Hrun as <- <-.
    unfold series_getitem in Hid. by destruct (index_of "participant_id" row.1); simplify_eq.
  - destruct (subject_row_run fs row sub_id Hid) as (d & Hd & _). by rewrite Hd in Hrun.
Qed.

(** [FileNotFoundError] comes from the explicit check only. *)
Lemma script_FileNotFoundError fs :
  (script PROJECT_ROOT fs).1 = inl FileNotFoundError →
  ∃ fs1, mkdir_p (SUMMARY_DIR PROJECT_ROOT) fs = (inr tt, fs1) ∧
         exists_ fs1 (PARTICIPANTS_FILE PROJECT_ROOT) = false.
Proof.
  unfold script, collect_rows, bind, gets, raise, lift, ret.
  destruct (creatable fs (SUMMARY_DIR PROJECT_ROOT)) eqn:Hc.
  2:{ destruct (mkdir_p_fail _ _ Hc) as (e & -> & [-> | ->]); done. }
  destruct (mkdir_p_ok _ _ Hc) as (fs1 & -> & _ & _).
  destruct (exists_ fs1 (PARTICIPANTS_FILE PROJECT_ROOT)) eqn:Hex; cbn [negb]; [|eauto].
  unfold read_csv at 1. unfold exists_ in Hex. apply bool_decide_eq_true in Hex as [en Hen].
  rewrite Hen. destruct en as [[df| |]|]; try done.
  destruct (mapM (subject_row PROJECT_ROOT) (iterrows df) fs1) as [[e|records] fs2] eqn:Hrows.
  - apply (mapM_error _ (λ e, e = KeyError)) in Hrows as ->; [done|].
    intros ????. apply subject_row_error.
  - unfold to_csv.
    destruct (entry_at fs2 (removelast (resolve_key fs2 (OUTPUT_CSV PROJECT_ROOT))))
      as [[]|]; try done.
    destruct (entry_at fs2 (resolve_key fs2 (OUTPUT_CSV PROJECT_ROOT))) as [[]|]; try done;
      unfold df_getitem;
      by destruct (index_of "qc_pass" (columns (DataFrame_of records))).
Qed.

Lemma script_participants_absent fs fs1 :
  mkdir_p (SUMMARY_DIR PROJECT_ROOT) fs = (inr tt, fs1) →
  exists_ fs1 (PARTICIPANTS_FILE PROJECT_ROOT) = false →
  script PROJECT_ROOT fs = (inl FileNotFoundError, fs1).
Proof.
  intros Hmk Hex. unfold script, collect_rows, bind, gets, raise. by rewrite Hmk, Hex.
Qed.

(** C7. The script raises [FileNotFoundError] only when [participants.tsv]
    is absent from the BIDS root, and it does raise it then provided the
    summary directory can be created, which is done before the check.  With
    the table absent the script fails and writes nothing: what is stored at
    [dataset_summary.csv] is unchanged, and the final state is the one the
    directory creation leaves. *)
Theorem participants_missing fs :
  ((script PROJECT_ROOT fs).1 = inl FileNotFoundError →
   exists_ fs (PARTICIPANTS_FILE PROJECT_ROOT) = false) ∧
  (exists_ fs (PARTICIPANTS_FILE PROJECT_ROOT) = false →
     (script PROJECT_ROOT fs).1 ≠ inr tt ∧
     (script PROJECT_ROOT fs).2 = (mkdir_p (SUMMARY_DIR PROJECT_ROOT) fs).2 ∧
     entry_at (script PROJECT_ROOT fs).2 (resolve_key fs (OUTPUT_CSV PROJECT_ROOT)) =
       entry_at fs (resolve_key fs (OUTPUT_CSV PROJECT_ROOT))) ∧
  (creatable fs (SUMMARY_DIR PROJECT_ROOT) = true →
   exists_ fs (PARTICIPANTS_FILE PROJECT_ROOT) = false →
     (script PROJECT_ROOT fs).1 = inl FileNotFoundError ∧
     is_dir (script PROJECT_ROOT fs).2 (SUMMARY_DIR PROJECT_ROOT) = true).
Proof.
  split; [|split].
  - intros (fs1 & Hmk & Hex)%script_FileNotFoundError.
    destruct (mkdir_summary_frame _ _ Hmk) as (_ & Hframe & _). congruence.
  - intros Habs. destruct (creatable fs (SUMMARY_DIR PROJECT_ROOT)) eqn:Hc.
    + destruct (mkdir_p_ok _ _ Hc) as (fs1 & Hmk & Hcwd & _).
      destruct (mkdir_summary_frame _ _ Hmk) as (_ & Hex & Hout).
      rewrite (resolve_key_cwd fs fs1) in Hout by done. rewrite <- Hex in Habs.
      by rewrite (script_participants_absent _ _ Hmk Habs), Hmk.
    + destruct (mkdir_p_fail _ _ Hc) as (e & Hmk & _).
      unfold script, collect_rows, bind. by rewrite Hmk.
  - intros Hc Habs. destruct (mkdir_p_ok _ _ Hc) as (fs1 & Hmk & _).
    destruct (mkdir_summary_frame _ _ Hmk) as (Hdir & Hex & _). rewrite <- Hex in Habs.
    by rewrite (script_participants_absent _ _ Hmk Habs).
Qed.


(** C9. In every row of the table the script writes, [qc_pass] is the
    [metrics_exists] flag, and a row whose flag is false has no CSF, GM or
    WM value: its record has no such key, so the cell is missing (NaN) or
    the table has no such column. *)
Theorem qc_pass_spec fs records :
  (collect_rows PROJECT_ROOT fs).1 = inr records →
  is_dir (collect_rows PROJECT_ROOT fs).2 (OUTPUT_CSV PROJECT_ROOT) = false →
  ∃ summary_df,
    table_at (script PROJECT_ROOT fs).2 (OUTPUT_CSV PROJECT_ROOT) = Some summary_df ∧
    summary_df = DataFrame_of records ∧
    ∀ i d, records !! i = Some d →
      ∃ b : bool,
        cell summary_df i "metrics_exists" = Some (VBool b) ∧
        cell summary_df i "qc_pass" = Some (VBool b) ∧
        (b = false → ∀ k, k ∈ ["CSF"; "GM"; "WM"] →
           dict_get k d = None ∧
           (cell summary_df i k = None ∨ cell summary_df i k = Some NaN)).
Proof.
  destruct (collect_rows PROJECT_ROOT fs) as [r fs1] eqn:Hrows. cbn [fst snd].
  intros -> Hfree. destruct (script_writes _ _ _ Hrows Hfree) as [Hcsv _].
  exists (DataFrame_of records). split; [done|]. split; [done|].
  intros i d Hd.
  destruct (collect_rows_inv _ _ _ Hrows) as (participants & _ & _ & HF).
  destruct (Forall2_lookup_r _ _ _ _ _ HF Hd) as (row & Hrow & Hrec).
  destruct (rec_id _ _ _ _ Hrec) as [sub_id Hid].
  destruct (rec_exists _ _ _ _ Hrec sub_id Hid) as (_ & Hm & Hq & Hnone & _).
  exists (exists_ fs1 (metrics_tsv PROJECT_ROOT sub_id)).
  split; [by eapply cell_of_record|]. split; [by eapply cell_of_record|].
  intros Hb k Hk. destruct (Hnone Hb) as (Hc & Hg & Hw).
  assert (dict_get k d = None) as Hkd.
  { rewrite !elem_of_cons in Hk. destruct Hk as [->|[->|[->|Hk]]]; try done.
    by apply elem_of_nil in Hk. }
  split; [done|]. by eapply cell_of_missing.
Qed.


End Summary.

(** * The theorems on the example environment *)

Import example.

Example subjects_of_disk : structural_pipeline.subjects disk = ["sub-01"].
Proof. vm_compute. reflexivity. Qed.



Lemma get_t1w_path_spec_witness :
  structural_pipeline.get_t1w_path "sub-01" "/work/ds000246_mri" disk =
    (inr "/work/ds000246_mri/sub-01/anat/sub-01_T1w.nii.gz", disk) ∧
  structural_pipeline.get_t1w_path "sub-02" "/work/ds000246_mri" disk =
    (inl FileNotFoundError, disk).
Proof.
  split.
  - apply (proj1 (get_t1w_path_spec disk "sub-01" "/work/ds000246_mri")).
    + vm_compute. reflexivity.
    + vm_compute. reflexivity.
  - apply (proj2 (get_t1w_path_spec disk "sub-02" "/work/ds000246_mri")).
    vm_compute. reflexivity.
Defined.

Lemma subjects_spec_witness :
  "sub-01" ∈ structural_pipeline.subjects disk ∧
  structural_pipeline.script which_fsl blank =
    (inl RuntimeError, (structural_pipeline.setup blank).2).
Proof.
  split.
  - apply (proj1 (subjects_spec disk)). split; [by exists "01"|].
    split; vm_compute; reflexivity.
  - apply (proj2 (proj2 (proj2 (subjects_spec (structural_pipeline.setup blank).2)))).
    + vm_compute. reflexivity.
    + reflexivity.
    + vm_compute. reflexivity.
Defined.

Lemma tool_nodes_iff_available_witness :
  (∃ n, n ∈ structural_pipeline.wf_nodes
              (structural_pipeline.workflow which_fsl ["sub-01"] "/work/ds000246_mri"
                 "/work/metrics") ∧
        structural_pipeline.command n = Some "fast") ∧
  ¬ (∃ n, n ∈ structural_pipeline.wf_nodes
                (structural_pipeline.workflow which_fsl ["sub-01"] "/work/ds000246_mri"
                   "/work/metrics") ∧
          structural_pipeline.command n = Some "recon-all").
Proof.
  destruct (tool_nodes_iff_available which_fsl ["sub-01"] "/work/ds000246_mri" "/work/metrics")
    as (_ & _ & _ & Hcmd & _).
  split.
  - apply (Hcmd "fast"); [|done]. apply list_elem_of_further, list_elem_of_here.
  - intros Hn. apply (Hcmd "recon-all") in Hn; [done|].
    do 2 apply list_elem_of_further. apply list_elem_of_here.
Defined.

Lemma wiring_spec_witness :
  structural_pipeline.sources
    (structural_pipeline.workflow which_fsl ["sub-01"] "/work/ds000246_mri" "/work/metrics")
    "fast" "in_files" =
    [(structural_pipeline.new_node (structural_pipeline.BET (1 # 2) true true) "bet",
      "out_file")] ∧
  structural_pipeline.sources
    (structural_pipeline.workflow which_fsl ["sub-01"] "/work/ds000246_mri" "/work/metrics")
    "volume_extraction" "seg_files" =
    [(structural_pipeline.new_node (structural_pipeline.FAST true true) "fast",
      "partial_volume_files")].
Proof.
  destruct (wiring_spec which_fsl ["sub-01"] "/work/ds000246_mri" "/work/metrics")
    as (Hfast & _).
  destruct (Hfast (structural_pipeline.new_node (structural_pipeline.FAST true true) "fast")
              eq_refl) as (Hbet & _ & Hseg).
  split; [|exact Hseg].
  exact (Hbet (structural_pipeline.new_node (structural_pipeline.BET (1 # 2) true true) "bet")
           eq_refl).
Defined.


(** A dataset without participants table, and one with it. *)
Lemma participants_missing_witness :
  (summarize_dataset.script root disk_unlisted).1 = inl FileNotFoundError ∧
  is_dir (summarize_dataset.script root disk_unlisted).2 (summarize_dataset.SUMMARY_DIR root)
    = true ∧
  entry_at (summarize_dataset.script root disk_unlisted).2
    (resolve_key disk_unlisted (summarize_dataset.OUTPUT_CSV root)) = None ∧
  (summarize_dataset.script root disk).1 ≠ inl FileNotFoundError.
Proof.
  assert (creatable disk_unlisted (summarize_dataset.SUMMARY_DIR root) = true) as Hc
    by (vm_compute; reflexivity).
  assert (exists_ disk_unlisted (summarize_dataset.PARTICIPANTS_FILE root) = false) as Habs
    by (vm_compute; reflexivity).
  destruct (participants_missing root disk_unlisted) as (_ & Hfail & Hraise).
  destruct (Hraise Hc Habs) as [Hfnf Hdir]. destruct (Hfail Habs) as (_ & _ & Hout).
  split; [exact Hfnf|]. split; [exact Hdir|]. split.
  - rewrite Hout. vm_compute. reflexivity.
  - assert (exists_ disk (summarize_dataset.PARTICIPANTS_FILE root) = true) as Hex
      by (vm_compute; reflexivity).
    intros Hfnf'. apply (proj1 (participants_missing root disk)) in Hfnf'. congruence.
Defined.


(** The third participant has no metrics file. *)
Lemma qc_pass_spec_witness :
  ∃ summary_df,
    table_at (summarize_dataset.script root disk).2 (summarize_dataset.OUTPUT_CSV root) =
      Some summary_df ∧
    cell summary_df 2 "metrics_exists" = Some (VBool false) ∧
    cell summary_df 2 "qc_pass" = Some (VBool false) ∧
    cell summary_df 2 "WM" = Some NaN.
Proof.
  pose (records := match (summarize_dataset.collect_rows root disk).1 with
                   | inr records => records
                   | inl _ => []
                   end).
  assert ((summarize_dataset.collect_rows root disk).1 = inr records) as Hrows
    by (vm_compute; reflexivity).
  assert (is_dir (summarize_dataset.collect_rows root disk).2
            (summarize_dataset.OUTPUT_CSV root) = false) as Hfree
    by (vm_compute; reflexivity).
  destruct (qc_pass_spec root disk records Hrows Hfree) as (summary_df & Hcsv & Hdf & Hcells).
  exists summary_df. split; [exact Hcsv|].
  assert (records !! 2 = Some (default [] (records !! 2))) as Hd
    by (vm_compute; reflexivity).
  destruct (Hcells 2 _ Hd) as (b & Hm & Hq & Hnone).
  assert (cell (DataFrame_of records) 2 "metrics_exists" = Some (VBool false)) as Hm'
    by (vm_compute; reflexivity).
  assert (b = false) as -> by (rewrite Hdf in Hm; congruence).
  split; [exact Hm|]. split; [exact Hq|].
  destruct (Hnone eq_refl "WM") as [_ [Habsent|Hnan]].
  - do 2 apply list_elem_of_further. apply list_elem_of_here.
  - assert (cell (DataFrame_of records) 2 "WM" = Some NaN) as Hw
      by (vm_compute; reflexivity).
    rewrite Hdf in Habsent. congruence.
  - exact Hnan.
Defined.


(** * Further properties *)

(** ** The workflow graph *)

Lemma tool_availability (which : string → option string) :
  ∃ b f r : bool,
    structural_pipeline.HAS which "bet" = b ∧ structural_pipeline.HAS which "fast" = f ∧
    structural_pipeline.HAS which "recon-all" = r ∧
    (f = true ↔ which "fast" ≠ None).
Proof.
  eexists _, _, _. split; [done|]. split; [done|]. split; [done|].
  apply HAS_true.
Qed.

(** Case analysis on the eight tool configurations of [workflow]. *)
Ltac config_cases which :=
  let b := fresh "b" in
  let f := fresh "f" in
  let r := fresh "r" in
  let Hb := fresh in
  let Hf := fresh in
  let Hr := fresh in
  let Hfast := fresh "Hfast" in
  destruct (tool_availability which) as (b & f & r & Hb & Hf & Hr & Hfast);
  unfold structural_pipeline.workflow, structural_pipeline.bet, structural_pipeline.fast,
    structural_pipeline.reconall;
  rewrite Hb, Hf, Hr; clear Hb Hf Hr; destruct b, f, r.

Lemma workflow_forward which subjects bids_root_resolved output_dir :
  forward_edges (structural_pipeline.workflow which subjects bids_root_resolved output_dir)
  = true.
Proof. config_cases which; vm_compute; reflexivity. Qed.

Lemma edge_position wf a b :
  forward_edges wf = true → edge wf a b →
  ∃ i j, index_of a (structural_pipeline.name <$> structural_pipeline.wf_nodes wf) = Some i ∧
         index_of b (structural_pipeline.name <$> structural_pipeline.wf_nodes wf) = Some j ∧
         i < j.
Proof.
  unfold forward_edges. rewrite forallb_forall.
  intros Hall ([[src dst] fields] & Hin & <- & <-).
  apply list_elem_of_In, Hall in Hin. cbn in *.
  destruct (index_of (structural_pipeline.name src) _) as [i|]; [|done].
  destruct (index_of (structural_pipeline.name dst) _) as [j|]; [|done].
  exists i, j. split; [done|]. split; [done|]. by apply Nat.ltb_lt.
Qed.

Lemma path_position wf a b :
  forward_edges wf = true → tc (edge wf) a b →
  ∃ i j, index_of a (structural_pipeline.name <$> structural_pipeline.wf_nodes wf) = Some i ∧
         index_of b (structural_pipeline.name <$> structural_pipeline.wf_nodes wf) = Some j ∧
         i < j.
Proof.
  intros Hfw. induction 1 as [a b Hab|a b c Hab _ IH]; [by apply edge_position|].
  destruct (edge_position _ _ _ Hfw Hab) as (i & j & Hi & Hj & Hij).
  destruct IH as (j' & k & Hj' & Hk & Hjk). exists i, k.
  split; [done|]. split; [done|]. rewrite Hj in Hj'. injection Hj' as <-. lia.
Qed.

(** X1. The workflow graph has no cycle: no node depends, directly or
    through other nodes, on its own output. *)
Theorem workflow_acyclic which subjects bids_root_resolved output_dir a :
  ¬ tc (edge (structural_pipeline.workflow which subjects bids_root_resolved output_dir)) a a.
Proof.
  intros Hcycle. apply path_position in Hcycle as (i & j & Hi & Hj & Hij);
    [|apply workflow_forward].
  rewrite Hi in Hj. injection Hj as <-. lia.
Qed.

Lemma elem_of_successors wf a b : b ∈ successors wf a → edge wf a b.
Proof.
  unfold successors. intros ([[src dst] fields] & Hin & Hb)%list_elem_of_omap.
  cbn in Hb. destruct (String.eqb_spec (structural_pipeline.name src) a) as [<-|]; [|done].
  injection Hb as <-. by exists (src, dst, fields).
Qed.

Lemma reach_sound wf fuel a b : b ∈ reach wf fuel a → rtc (edge wf) a b.
Proof.
  revert a. induction fuel as [|fuel IH]; intros a; cbn [reach].
  - intros [->|H]%elem_of_cons; [done|]. by apply elem_of_nil in H.
  - intros [->|H]%elem_of_cons; [done|].
    apply list_elem_of_In, in_flat_map in H as (c & Hc & Hb).
    apply rtc_l with c.
    + by apply elem_of_successors, list_elem_of_In.
    + by apply IH, list_elem_of_In.
Qed.

(** X2. Every node of the workflow is the input node or lies downstream of
    it, so the iteration over the subjects set on the input node reaches
    every node. *)
Theorem workflow_from_inputnode which subjects bids_root_resolved output_dir n :
  n ∈ structural_pipeline.wf_nodes
        (structural_pipeline.workflow which subjects bids_root_resolved output_dir) →
  rtc (edge (structural_pipeline.workflow which subjects bids_root_resolved output_dir))
      (structural_pipeline.name (structural_pipeline.inputnode subjects))
      (structural_pipeline.name n).
Proof.
  intros Hn. apply (reach_sound _ 4). revert n Hn.
  assert (forallb (λ n, bool_decide
            (structural_pipeline.name n ∈
               reach (structural_pipeline.workflow which subjects bids_root_resolved output_dir)
                 4 "inputnode"))
            (structural_pipeline.wf_nodes
               (structural_pipeline.workflow which subjects bids_root_resolved output_dir))
          = true) as Hall by (config_cases which; vm_compute; reflexivity).
  rewrite forallb_forall in Hall. intros n Hn%list_elem_of_In.
  apply Hall in Hn. by apply bool_decide_eq_true in Hn.
Qed.

(** X3. No input field of a node is fed by two connections. *)
Theorem workflow_inputs_fed_once which subjects bids_root_resolved output_dir :
  NoDup (fed_inputs (structural_pipeline.workflow which subjects bids_root_resolved output_dir)).
Proof.
  apply (proj1 (bool_decide_eq_true _)). config_cases which; vm_compute; reflexivity.
Qed.

(** X4. On the nodes whose interface the script defines (the input node and
    the two function nodes), every connected field is one the interface
    declares: an output the node produces, an input its function takes. *)
Theorem workflow_fields_declared which subjects bids_root_resolved output_dir src dst fields
    out inp :
  (src, dst, fields) ∈ structural_pipeline.wf_connections
    (structural_pipeline.workflow which subjects bids_root_resolved output_dir) →
  (out, inp) ∈ fields →
  (∀ outs, declared_outputs src = Some outs → out ∈ outs) ∧
  (∀ ins, declared_inputs dst = Some ins → inp ∈ ins).
Proof.
  intros Hc Hf.
  assert (fields_declared
            (structural_pipeline.workflow which subjects bids_root_resolved output_dir) = true)
    as Hall by (config_cases which; vm_compute; reflexivity).
  unfold fields_declared in Hall. rewrite forallb_forall in Hall.
  apply list_elem_of_In, Hall in Hc. cbn in Hc. rewrite forallb_forall in Hc.
  apply list_elem_of_In, Hc in Hf. cbn in Hf. apply andb_prop in Hf as [Ho Hi].
  split.
  - intros outs Houts. rewrite Houts in Ho. by apply bool_decide_eq_true in Ho.
  - intros ins Hins. rewrite Hins in Hi. by apply bool_decide_eq_true in Hi.
Qed.

(** X5. Every input of the T1w resolver's function has a value in every
    configuration; every input of [compute_tissue_volumes] has one exactly
    when [fast] is available: without it nothing supplies [seg_files]. *)
Theorem workflow_inputs_supplied which subjects bids_root_resolved output_dir :
  let wf := structural_pipeline.workflow which subjects bids_root_resolved output_dir in
  let t1w_resolver := structural_pipeline.t1w_resolver bids_root_resolved in
  let volume_node := structural_pipeline.volume_node output_dir in
  (∀ ins field, declared_inputs t1w_resolver = Some ins → field ∈ ins →
     supplied wf t1w_resolver field) ∧
  ((∀ ins field, declared_inputs volume_node = Some ins → field ∈ ins →
      supplied wf volume_node field) ↔ which "fast" ≠ None).
Proof.
  intros wf t1w_resolver volume_node. subst wf t1w_resolver volume_node. split.
  - intros ins field [= <-] Hin. rewrite !elem_of_cons in Hin.
    destruct Hin as [->|[->|Hin]]; [| |by apply elem_of_nil in Hin].
    + right. config_cases which; by cbn.
    + left. cbn. apply list_elem_of_here.
  - split.
    + intros Hall. destruct (Hall _ "seg_files" eq_refl) as [Hset|Hfed].
      * apply list_elem_of_here.
      * cbn in Hset. apply elem_of_cons in Hset as [?|Hset]; [done|].
        by apply elem_of_nil in Hset.
      * revert Hfed. config_cases which; cbn; intros Hfed; try done; by apply Hfast.
    + intros Hav ins field [= <-] Hin. rewrite !elem_of_cons in Hin.
      destruct Hin as [->|[->|[->|Hin]]]; [| | |by apply elem_of_nil in Hin].
      * right. revert Hav. config_cases which; cbn; intros Hav; try done;
          by apply Hfast in Hav.
      * right. config_cases which; by cbn.
      * left. cbn. apply list_elem_of_here.
Qed.

(** ** Edge cases and effects of [compute_tissue_volumes] *)

Section VolumetryEffects.
Context {F : Type} `{!Float F}.
Implicit Types (fs : FS (F:=F)) (img : Image (F:=F)).
Import structural_pipeline.

Lemma nib_load_state fs p : (nib_load p fs).2 = fs.
Proof. unfold nib_load. by destruct (entry_at fs (resolve_key fs p)) as [[[]|]|]. Qed.


Lemma measure_all_state fs files (volumes : dict (F:=F)) :
  (measure_all files volumes fs).2 = fs.
Proof.
  revert volumes. induction files as [|f files IH]; intros volumes; cbn [measure_all]; [done|].
  unfold bind. pose proof (nib_load_state fs (path_of f)) as Hst.
  destruct (nib_load (path_of f) fs) as [[e|img] fs']; cbn in Hst; subst fs'; [done|].
  apply IH.
Qed.


Lemma mkdir_p_frame fs p :
  cwd (mkdir_p p fs).2 = cwd fs ∧
  ∀ q, q ∉ ancestors (resolve_key fs p) → entry_at (mkdir_p p fs).2 q = entry_at fs q.
Proof.
  destruct (creatable fs p) eqn:Hc.
  - destruct (mkdir_p_ok fs p Hc) as (fs1 & -> & Hcwd & Hent). split; [done|].
    intros q Hq. cbn. rewrite Hent. by rewrite bool_decide_eq_false_2.
  - by destruct (mkdir_p_fail fs p Hc) as (e & -> & _).
Qed.

Lemma to_csv_frame fs p df :
  cwd (to_csv df p fs).2 = cwd fs ∧
  ∀ q, q ≠ resolve_key fs p → entry_at (to_csv df p fs).2 q = entry_at fs q.
Proof.
  unfold to_csv.
  destruct (entry_at fs (removelast (resolve_key fs p))) as [[]|]; try done.
  destruct (entry_at fs (resolve_key fs p)) as [[]|]; try done;
    (split; [done|]; intros q Hq; destruct q as [|x q]; [done|]; cbn;
     by rewrite lookup_insert_ne).
Qed.



(** X8. Whatever its outcome, the function called with an output directory
    without [..] component changes nothing but that directory with its
    ancestors and the table itself: every other entry of the file system,
    and the working directory, are as before.  (Through [x/..] the call to
    [mkdir] would also create [x].) *)
Theorem compute_tissue_volumes_frame fs seg_files subject_id output_dir q :
  let out_file := path_of output_dir // (subject_id +:+ "_tissue_volumes.tsv") in
  let fs' := (compute_tissue_volumes seg_files subject_id output_dir fs).2 in
  lexical (path_of output_dir) = true →
  q ≠ resolve_key fs out_file →
  q ∉ ancestors (resolve_key fs (path_of output_dir)) →
  cwd fs' = cwd fs ∧ entry_at fs' q = entry_at fs q.
Proof.
  intros out_file fs' _ Hq Hanc. subst out_file fs'.
  unfold compute_tissue_volumes, bind.
  pose proof (measure_all_state fs seg_files [("subject_id", VStr subject_id)]) as Hst.
  destruct (measure_all seg_files [("subject_id", VStr subject_id)] fs) as [[e|volumes] fs0];
    cbn in Hst; subst fs0; [done|].
  destruct (mkdir_p_frame fs (path_of output_dir)) as [Hcwd1 Hent1].
  destruct (mkdir_p (path_of output_dir) fs) as [[e|[]] fs1]; cbn [snd] in *.
  { split; [done|]. by apply Hent1. }
  match goal with
  | |- context [to_csv ?df ?p fs1] =>
      destruct (to_csv_frame fs1 p df) as [Hcwd2 Hent2];
      rewrite (resolve_key_cwd fs fs1) in Hent2 by done;
      destruct (to_csv df p fs1) as [[e|[]] fs2]; cbn [snd] in *
  end.
  - split; [by rewrite Hcwd2|]. rewrite Hent2 by done. by apply Hent1.
  - unfold ret. cbn [snd].
    split; [by rewrite Hcwd2|]. rewrite Hent2 by done. by apply Hent1.
Qed.

End VolumetryEffects.

(** ** Edge cases of the summary script *)

Section SummaryEffects.
Context {F : Type} `{!Float F}.
Variable PROJECT_ROOT : Path.
Implicit Types (fs : FS (F:=F)) (row : Series (F:=F)) (d : dict (F:=F)).
Import summarize_dataset.



Lemma dict_get_None d k : dict_get k d = None → k ∉ dict_keys d.
Proof.
  induction d as [|[k' v'] d IH]; cbn; [intros _; apply not_elem_of_nil|].
  destruct (String.eqb_spec k' k) as [->|Hne]; [done|].
  intros Hk. apply not_elem_of_cons. split; [done|]. by apply IH.
Qed.


(** X9. A participants table without rows gives an empty summary table,
    without any column, written to [dataset_summary.csv]; the script then
    ends in [KeyError], raised by the report that reads the [qc_pass]
    column. *)
Theorem summary_of_no_participants fs participants :
  let fs1 := (mkdir_p (SUMMARY_DIR PROJECT_ROOT) fs).2 in
  creatable fs (SUMMARY_DIR PROJECT_ROOT) = true →
  table_at fs1 (PARTICIPANTS_FILE PROJECT_ROOT) = Some participants →
  rows participants = [] →
  is_dir fs1 (OUTPUT_CSV PROJECT_ROOT) = false →
  (script PROJECT_ROOT fs).1 = inl KeyError ∧
  table_at (script PROJECT_ROOT fs).2 (OUTPUT_CSV PROJECT_ROOT) = Some (mkDataFrame [] []).
Proof.
  intros fs1 Hc Htab Hrows Hfree.
  destruct (mkdir_p_ok _ _ Hc) as (fs1' & Hmk & _). subst fs1. rewrite Hmk in *.
  cbn [snd] in *.
  assert (collect_rows PROJECT_ROOT fs = (inr [], fs1')) as Hrun.
  { unfold collect_rows, bind. rewrite Hmk. unfold gets.
    assert (exists_ fs1' (PARTICIPANTS_FILE PROJECT_ROOT) = true) as ->.
    { unfold exists_, table_at in *. apply bool_decide_eq_true.
      destruct (entry_at fs1' (resolve_key fs1' (PARTICIPANTS_FILE PROJECT_ROOT)));
        [eauto|done]. }
    cbn [negb]. rewrite (read_csv_table_at _ _ _ Htab). unfold iterrows. by rewrite Hrows. }
  destruct (script_writes _ _ _ _ Hrun Hfree) as [Hcsv _]. split; [|exact Hcsv].
  unfold script, bind in *. rewrite Hrun in *.
  destruct (to_csv (DataFrame_of []) (OUTPUT_CSV PROJECT_ROOT) fs1') as [[e|[]] fs2] eqn:Hw.
  - cbn in Hcsv. destruct (mkdir_summary_frame _ _ _ Hmk) as (Hdir & _ & _).
    destruct (to_csv_ok fs1' (OUTPUT_CSV PROJECT_ROOT) (DataFrame_of [])) as (fs2' & Hok & _).
    + rewrite key_OUTPUT_CSV, removelast_last. unfold is_dir in Hdir.
      by destruct (entry_at fs1' (resolve_key fs1' (SUMMARY_DIR PROJECT_ROOT))) as [[]|].
    + unfold is_dir in Hfree.
      by destruct (entry_at fs1' (resolve_key fs1' (OUTPUT_CSV PROJECT_ROOT))) as [[]|].
    + by rewrite Hw in Hok.
  - done.
Qed.

(** X10. A participants table that has rows but no [participant_id] column
    makes the script raise [KeyError] at the first row; nothing is written:
    the file system is the one the creation of the summary directory
    leaves. *)
Theorem summary_without_id_column fs participants :
  let fs1 := (mkdir_p (SUMMARY_DIR PROJECT_ROOT) fs).2 in
  creatable fs (SUMMARY_DIR PROJECT_ROOT) = true →
  table_at fs1 (PARTICIPANTS_FILE PROJECT_ROOT) = Some participants →
  "participant_id" ∉ columns participants →
  rows participants ≠ [] →
  script PROJECT_ROOT fs = (inl KeyError, fs1).
Proof.
  intros fs1 Hc Htab Hcol Hrows.
  destruct (mkdir_p_ok _ _ Hc) as (fs1' & Hmk & _). subst fs1. rewrite Hmk in *.
  cbn [snd] in *.
  unfold script, collect_rows, bind. rewrite Hmk. unfold gets.
  assert (exists_ fs1' (PARTICIPANTS_FILE PROJECT_ROOT) = true) as ->.
  { unfold exists_, table_at in *. apply bool_decide_eq_true.
    destruct (entry_at fs1' (resolve_key fs1' (PARTICIPANTS_FILE PROJECT_ROOT)));
      [eauto|done]. }
  cbn [negb]. rewrite (read_csv_table_at _ _ _ Htab). unfold iterrows.
  destruct (rows participants) as [|r rs]; [done|]. cbn [fmap list_fmap mapM].
  unfold bind. unfold subject_row at 1. unfold bind, lift.
  by rewrite series_getitem_missing.
Qed.

End SummaryEffects.

(** ** The header of the summary table *)

Section SummaryHeader.
Context {F : Type} `{!Float F}.
Variable PROJECT_ROOT : Path.
Implicit Types (fs : FS (F:=F)) (row : Series (F:=F)) (d : dict (F:=F)).
Import summarize_dataset.



Lemma add_keys_by_keys (cols : list string) d d' :
  dict_keys d = dict_keys d' → add_keys cols d = add_keys cols d'.
Proof. unfold add_keys. by intros ->. Qed.




End SummaryHeader.

Section SummaryTable.
Context {F : Type} `{!Float F}.
Variable PROJECT_ROOT : Path.
Implicit Types (fs : FS (F:=F)) (row : Series (F:=F)) (d : dict (F:=F)).
Import summarize_dataset.





End SummaryTable.

(** ** Paths written as strings and read back *)

Lemma split_on_app_sep s t :
  no_slash s = true → split_on "/" (s +:+ String "/" t) = s :: split_on "/" t.
Proof.
  induction s as [|c s IH]; simpl; [done|].
  intros [Hc Hs]%andb_prop. apply negb_true_iff in Hc. rewrite Hc, (IH Hs). done.
Qed.

Lemma split_on_join l :
  Forall (λ c, no_slash c = true) l → l ≠ [] → split_on "/" (join_with "/" l) = l.
Proof.
  induction 1 as [|x l Hx Hl IH]; [done|]. intros _. destruct l as [|y l].
  - cbn. by apply split_on_no_slash.
  - change (join_with "/" (x :: y :: l)) with (x +:+ String "/" (join_with "/" (y :: l))).
    rewrite split_on_app_sep by done. by rewrite IH.
Qed.

Lemma proper_name_inv c :
  proper_name c = true → no_slash c = true ∧ is_component c = true ∧ c ≠ "..".
Proof.
  unfold proper_name. intros [[? ?]%andb_prop Hd]%andb_prop.
  split; [done|]. split; [done|]. intros ->. done.
Qed.

Lemma filter_proper l : forallb proper_name l = true → List.filter is_component l = l.
Proof.
  induction l as [|c l IH]; cbn; [done|].
  intros [(_ & -> & _)%proper_name_inv Hl]%andb_prop. by rewrite IH.
Qed.

(** [Path(str(p))] is [p] for an absolute path made of proper names. *)
Lemma path_of_path_str l :
  forallb proper_name l = true → path_of (path_str (mkPath true l)) = mkPath true l.
Proof.
  intros Hl. destruct l as [|c l]; [done|].
  unfold path_str. cbn [parts anchored].
  change ("/" +:+ join_with "/" (c :: l)) with (String "/" (join_with "/" (c :: l))).
  unfold path_of. f_equal.
  - cbn [String.prefix]. destruct (ascii_dec "/" "/") as [_|Hne]; [|done].
    by destruct (join_with "/" (c :: l)).
  - change (split_on "/" (String "/" (join_with "/" (c :: l))))
      with ("" :: split_on "/" (join_with "/" (c :: l))).
    rewrite split_on_join; [|..|done].
    + change (List.filter is_component ("" :: c :: l))
        with (List.filter is_component (c :: l)).
      by apply filter_proper.
    + apply Forall_forall. intros x Hx%list_elem_of_In.
      rewrite forallb_forall in Hl. by apply Hl, proper_name_inv in Hx as [? _].
Qed.

Lemma normalize_proper acc l :
  forallb proper_name l = true → normalize acc l = acc ++ l.
Proof.
  revert acc. induction l as [|c l IH]; intros acc; cbn; [by rewrite app_nil_r|].
  intros [(_ & _ & Hc)%proper_name_inv Hl]%andb_prop.
  destruct (String.eqb_spec c ".."); [done|]. rewrite IH by done. by rewrite <- app_assoc.
Qed.

Lemma normalize_app acc l1 l2 :
  normalize acc (l1 ++ l2) = normalize (normalize acc l1) l2.
Proof.
  revert acc. induction l1 as [|c l1 IH]; intros acc; cbn; [done|].
  destruct (String.eqb c ".."); apply IH.
Qed.

Lemma path_div_relative p s :
  anchored (path_of s) = false →
  p // s = mkPath (anchored p) (parts p ++ parts (path_of s)).
Proof. unfold path_div. by intros ->. Qed.

Section RunFromRoot.
Context {F : Type} `{!Float F}.
Implicit Types (fs : FS (F:=F)).

(** A path resolved, written as a string and read back has the key it had,
    when the working directory is made of proper names. *)
Lemma resolve_key_path_str fs p :
  forallb proper_name (resolve_key fs p) = true →
  resolve_key fs (path_of (path_str (resolve fs p))) = resolve_key fs p.
Proof.
  intros Hp. unfold resolve. rewrite path_of_path_str by done.
  unfold resolve_key at 1. cbn [anchored parts]. by rewrite normalize_proper.
Qed.

Lemma path_of_resolved fs p :
  forallb proper_name (resolve_key fs p) = true →
  path_of (path_str (resolve fs p)) = mkPath true (resolve_key fs p).
Proof. intros Hp. unfold resolve. by rewrite path_of_path_str. Qed.

(** Relative names appended to a path and to its resolved form lead to the
    same entry. *)
Lemma resolve_key_rebased fs p l :
  forallb proper_name (resolve_key fs p) = true →
  resolve_key fs (mkPath true (resolve_key fs p ++ l)) =
  resolve_key fs (mkPath (anchored p) (parts p ++ l)).
Proof.
  intros Hp. unfold resolve_key at 1 3. cbn [anchored parts].
  rewrite !normalize_app. f_equal. by rewrite normalize_proper.
Qed.


Lemma resolve_key_div_normal fs p s :
  resolve_key fs (p // s) =
  if anchored (path_of s) then resolve_key fs (path_of s)
  else normalize (resolve_key fs p) (parts (path_of s)).
Proof.
  unfold path_div. cbn zeta. destruct (anchored (path_of s)) eqn:E; [done|].
  unfold resolve_key. cbn [anchored parts]. apply normalize_app.
Qed.

(** What [p / s] resolves to depends on [p] only through what [p] resolves
    to. *)
Lemma resolve_key_div_congr fs p q s :
  resolve_key fs p = resolve_key fs q → resolve_key fs (p // s) = resolve_key fs (q // s).
Proof. intros H. by rewrite !resolve_key_div_normal, H. Qed.

End RunFromRoot.

(** ** The resolver on the discovered subjects *)

Section ResolverOnSubjects.
Context {F : Type} `{!Float F}.
Implicit Types (fs : FS (F:=F)).
Import structural_pipeline.

Lemma proper_bids_root fs :
  forallb proper_name (cwd fs) = true →
  forallb proper_name (resolve_key fs bids_root) = true.
Proof. intros H. rewrite resolve_key_bids_root, forallb_app, H. reflexivity. Qed.

(** X15. The node parameters fit the resolver: called as the workflow calls
    it, with the resolved dataset root and a subject of the discovered list,
    [get_t1w_path] does not raise and returns the resolved path of the
    image that made discovery keep the subject. *)
Theorem discovered_subjects_resolve fs sid :
  forallb proper_name (cwd fs) = true →
  sid ∈ subjects fs →
  get_t1w_path sid (path_str (resolve fs bids_root)) fs =
    (inr (path_str (resolve fs (t1_candidate sid))), fs).
Proof.
  intros Hcwd Hsid. unfold subjects in Hsid.
  apply list_elem_of_In, filter_In in Hsid as [_ Hex].
  assert (resolve_key fs (path_of (path_str (resolve fs bids_root)) // sid // "anat"
                            // (sid +:+ "_T1w.nii.gz")) =
          resolve_key fs (t1_candidate sid)) as Hkey.
  { unfold t1_candidate. do 3 apply resolve_key_div_congr.
    by apply resolve_key_path_str, proper_bids_root. }
  unfold get_t1w_path, bind, gets, raise, ret. unfold exists_, resolve in *.
  rewrite Hkey, Hex. cbn [negb]. cbv beta. by rewrite Hkey.
Qed.

End ResolverOnSubjects.

(** ** From the pipeline's table to the summary *)

Lemma ancestors_app_prefix (k s t : list string) :
  k ++ s ∈ ancestors (k ++ t) → s `prefix_of` t.
Proof.
  intros (n & Hn & Heq)%elem_of_ancestors.
  assert (n = length k + length s) as ->.
  { apply (f_equal length) in Heq. rewrite length_take, !length_app in *. lia. }
  rewrite take_app_add in Heq. apply app_inv_head in Heq as ->. apply prefix_take.
Qed.

Section EndToEnd.
Context {F : Type} `{!Float F}.
Variable PROJECT_ROOT : Path.
Implicit Types (fs : FS (F:=F)).
Import structural_pipeline summarize_dataset.







End EndToEnd.

(** ** Discovery after the output directories are created *)

Lemma split_on_suffixed s t :
  no_slash t = true →
  ∃ l x, split_on "/" s = l ++ [x] ∧ split_on "/" (s +:+ t) = l ++ [x +:+ t].
Proof.
  intros Ht. induction s as [|c s (l & x & Hs & Hst)].
  - exists [], "". split; [done|]. by apply split_on_no_slash.
  - change (String c s +:+ t) with (String c (s +:+ t)). cbn [split_on].
    rewrite Hs, Hst. destruct (Ascii.eqb c "/").
    + by exists ("" :: l), x.
    + destruct l as [|w l]; [by exists [], (String c x)|by exists (String c w :: l), x].
Qed.

Lemma t1w_name_fresh x :
  x +:+ "_T1w.nii.gz" ∉ ["ds000246_mri"; "derivatives"; "mri_pipeline"; "freesurfer"].
Proof.
  intros H. rewrite !elem_of_cons in H.
  destruct H as [H|[H|[H|[H|H]]]]; [..|by apply elem_of_nil in H];
    pose proof (f_equal String.length H) as Hlen; rewrite length_append in Hlen;
    destruct x as [|a [|b x]]; cbn in Hlen; try lia; discriminate H.
Qed.

Lemma ancestors_app_cases (k t q : list string) :
  q ∈ ancestors (k ++ t) →
  q ∈ ancestors k ∨ ∃ s, s ≠ [] ∧ s `prefix_of` t ∧ q = k ++ s.
Proof.
  intros (n & Hn & ->)%elem_of_ancestors.
  destruct (decide (n ≤ length k)) as [Hle|Hgt].
  - left. apply elem_of_ancestors. exists n. split; [lia|]. by rewrite take_app_le.
  - right. exists (take (n - length k) t). rewrite length_app in Hn. split; [|split].
    + destruct t as [|x t]; [simpl in Hn; lia|].
      destruct (n - length k) as [|m] eqn:E; [lia|done].
    + apply prefix_take.
    + rewrite take_app. f_equal. apply take_ge. lia.
Qed.

Section SetupFrame.
Context {F : Type} `{!Float F}.
Implicit Types (fs : FS (F:=F)) (q : list string).
Import structural_pipeline.

(** An entry [mkdir_p] leaves as it was: a directory, or a path that is none
    of the directory's ancestors. *)
Lemma mkdir_p_keeps fs p q :
  (entry_at fs q = Some Dir ∨ q ∉ ancestors (resolve_key fs p)) →
  entry_at (mkdir_p p fs).2 q = entry_at fs q.
Proof.
  intros Hq. destruct (creatable fs p) eqn:Hc.
  - destruct (mkdir_p_ok fs p Hc) as (fs1 & -> & _ & Hent). cbn [snd]. rewrite Hent.
    case_bool_decide as Hin; [|done]. by destruct Hq.
  - by destruct (mkdir_p_fail fs p Hc) as (e & -> & _).
Qed.

Lemma setup_cwd fs : cwd (setup fs).2 = cwd fs.
Proof.
  unfold setup, bind.
  pose proof (proj1 (mkdir_p_frame fs pipeline_dir)) as H1.
  destruct (mkdir_p pipeline_dir fs) as [[e|[]] fs1]; cbn [snd] in *; [done|].
  by rewrite (proj1 (mkdir_p_frame fs1 freesurfer_dir)).
Qed.

Lemma setup_keeps fs q :
  (entry_at fs q = Some Dir ∨
   ((q ∉ ancestors (resolve_key fs pipeline_dir)) ∧
    (q ∉ ancestors (resolve_key fs freesurfer_dir)))) →
  entry_at (setup fs).2 q = entry_at fs q.
Proof.
  intros Hq. unfold setup, bind.
  pose proof (mkdir_p_keeps fs pipeline_dir q) as H1.
  pose proof (proj1 (mkdir_p_frame fs pipeline_dir)) as Hcwd.
  destruct (mkdir_p pipeline_dir fs) as [[e|[]] fs1]; cbn [snd] in *.
  - apply H1. tauto.
  - rewrite <- H1 by tauto. apply mkdir_p_keeps.
    rewrite (resolve_key_cwd fs fs1) by done. rewrite H1 by tauto. tauto.
Qed.

Lemma key_pipeline_dir fs :
  resolve_key fs pipeline_dir = cwd fs ++ ["ds000246_mri"; "derivatives"; "mri_pipeline"].
Proof. unfold resolve_key. cbn. by rewrite <- !app_assoc. Qed.

Lemma key_freesurfer_dir fs :
  resolve_key fs freesurfer_dir = cwd fs ++ ["ds000246_mri"; "derivatives"; "freesurfer"].
Proof. unfold resolve_key. cbn. by rewrite <- !app_assoc. Qed.

(** The directory of a subject is none of the directories the script
    creates. *)
Lemma setup_keeps_subject_dir fs rest :
  entry_at (setup fs).2 (resolve_key fs bids_root ++ ["sub-" +:+ rest]) =
  entry_at fs (resolve_key fs bids_root ++ ["sub-" +:+ rest]).
Proof.
  apply setup_keeps. right.
  rewrite key_pipeline_dir, key_freesurfer_dir, resolve_key_bids_root, <- app_assoc.
  split; intros [k Hk]%ancestors_app_prefix; simplify_eq.
Qed.

(** The key of a subject's image ends in a name that none of the created
    directories has. *)
Lemma key_t1_candidate fs rest :
  ∃ pre x, resolve_key fs (t1_candidate ("sub-" +:+ rest)) = pre ++ [x +:+ "_T1w.nii.gz"].
Proof.
  unfold t1_candidate.
  destruct (split_on_suffixed ("sub-" +:+ rest) "_T1w.nii.gz" eq_refl) as (l & x & _ & Hst).
  rewrite resolve_key_div_normal.
  assert (anchored (path_of (("sub-" +:+ rest) +:+ "_T1w.nii.gz")) = false) as -> by done.
  assert (parts (path_of (("sub-" +:+ rest) +:+ "_T1w.nii.gz")) =
          List.filter is_component l ++ [x +:+ "_T1w.nii.gz"]) as ->.
  { unfold path_of. cbn [parts]. rewrite Hst, List.filter_app. f_equal. cbn [List.filter].
    assert (is_component (x +:+ "_T1w.nii.gz") = true) as ->; [|done].
    unfold is_component.
    destruct (String.eqb_spec (x +:+ "_T1w.nii.gz") "") as [E|_];
      [apply (f_equal String.length) in E; rewrite length_append in E; cbn in E; lia|].
    destruct (String.eqb_spec (x +:+ "_T1w.nii.gz") ".") as [E|_];
      [apply (f_equal String.length) in E; rewrite length_append in E; cbn in E; lia|].
    done. }
  rewrite normalize_snoc; [eauto|].
  intros E. apply (f_equal String.length) in E. rewrite length_append in E. cbn in E. lia.
Qed.

Lemma setup_keeps_t1_candidate fs rest :
  cwd_exists fs = true →
  entry_at (setup fs).2 (resolve_key fs (t1_candidate ("sub-" +:+ rest))) =
  entry_at fs (resolve_key fs (t1_candidate ("sub-" +:+ rest))).
Proof.
  intros Hcwd. unfold cwd_exists in Hcwd. rewrite forallb_forall in Hcwd.
  destruct (key_t1_candidate fs rest) as (pre & x & ->).
  assert (∀ t, (∀ s, s ≠ [] → s `prefix_of` t →
                     ∃ s' c, s = s' ++ [c] ∧
                       c ∈ ["ds000246_mri"; "derivatives"; "mri_pipeline"; "freesurfer"]) →
               pre ++ [x +:+ "_T1w.nii.gz"] ∈ ancestors (cwd fs ++ t) →
               entry_at fs (pre ++ [x +:+ "_T1w.nii.gz"]) = Some Dir) as Hcases.
  { intros t Ht [Hin|(s & Hs & Hpre & Heq)]%ancestors_app_cases.
    - apply list_elem_of_In, Hcwd in Hin.
      by destruct (entry_at fs (pre ++ [x +:+ "_T1w.nii.gz"])) as [[]|].
    - destruct (Ht s Hs Hpre) as (s' & c & -> & Hc). rewrite app_assoc in Heq.
      apply app_inj_tail in Heq as [_ <-]. by apply t1w_name_fresh in Hc. }
  apply setup_keeps.
  destruct (decide (pre ++ [x +:+ "_T1w.nii.gz"] ∈ ancestors (resolve_key fs pipeline_dir)))
    as [Hin|Hout1].
  { left. rewrite key_pipeline_dir in Hin. revert Hin. apply Hcases.
    intros s Hs [k Hk]. destruct s as [|a [|b [|c [|d s]]]]; cbn in Hk; simplify_eq.
    - exists [], "ds000246_mri". split; [done|]. apply list_elem_of_here.
    - exists ["ds000246_mri"], "derivatives". split; [done|].
      apply list_elem_of_further, list_elem_of_here.
    - exists ["ds000246_mri"; "derivatives"], "mri_pipeline". split; [done|].
      do 2 apply list_elem_of_further. apply list_elem_of_here. }
  destruct (decide (pre ++ [x +:+ "_T1w.nii.gz"] ∈ ancestors (resolve_key fs freesurfer_dir)))
    as [Hin|Hout2]; [|by right].
  left. rewrite key_freesurfer_dir in Hin. revert Hin. apply Hcases.
  intros s Hs [k Hk]. destruct s as [|a [|b [|c [|d s]]]]; cbn in Hk; simplify_eq.
  - exists [], "ds000246_mri". split; [done|]. apply list_elem_of_here.
  - exists ["ds000246_mri"], "derivatives". split; [done|].
    apply list_elem_of_further, list_elem_of_here.
  - exists ["ds000246_mri"; "derivatives"], "freesurfer". split; [done|].
    do 3 apply list_elem_of_further. apply list_elem_of_here.
Qed.

(** X17. Creating the output directories, which lie inside the dataset,
    does not change what discovery finds: run in an existing working
    directory, the script discovers the subjects the dataset had before
    [derivatives/mri_pipeline] and [derivatives/freesurfer] were made,
    whether or not they could be made. *)
Theorem setup_preserves_subjects fs :
  cwd_exists fs = true →
  all_subjects (setup fs).2 = all_subjects fs ∧ subjects (setup fs).2 = subjects fs.
Proof.
  intros Hcwd.
  assert (∀ p, resolve_key (setup fs).2 p = resolve_key fs p) as Hkey.
  { intros p. apply resolve_key_cwd, setup_cwd. }
  assert (all_subjects (setup fs).2 = all_subjects fs) as Hall.
  { apply (StronglySorted_unique String.le); [apply sorted_all_subjects..|].
    apply NoDup_Permutation; [apply NoDup_all_subjects..|].
    intros sid. rewrite !elem_of_all_subjects, Hkey.
    split; intros [[rest ->] Hdir]; (split; [by exists rest|]).
    - by rewrite <- setup_keeps_subject_dir.
    - by rewrite setup_keeps_subject_dir. }
  split; [done|]. unfold subjects. rewrite Hall. apply filter_ext_in.
  intros sid [[rest ->] _]%list_elem_of_In%elem_of_all_subjects.
  unfold exists_. by rewrite Hkey, setup_keeps_t1_candidate.
Qed.

End SetupFrame.

(** * The further properties on the example environments *)

Import scenario.

(** The volume node is reached from the input node. *)
Lemma workflow_from_inputnode_witness :
  rtc (edge (structural_pipeline.workflow which_fsl ["sub-01"] "/work/ds000246_mri"
               "/work/metrics"))
      (structural_pipeline.name (structural_pipeline.inputnode ["sub-01"]))
      (structural_pipeline.name (structural_pipeline.volume_node "/work/metrics")).
Proof.
  apply (workflow_from_inputnode which_fsl ["sub-01"] "/work/ds000246_mri" "/work/metrics").
  vm_compute. repeat constructor.
Defined.

(** The connection from the input node to the resolver. *)
Lemma workflow_fields_declared_witness :
  (∀ outs, declared_outputs (structural_pipeline.inputnode ["sub-01"]) = Some outs →
           "subject_id" ∈ outs) ∧
  (∀ ins, declared_inputs (structural_pipeline.t1w_resolver "/work/ds000246_mri") = Some ins →
          "subject_id" ∈ ins).
Proof.
  apply (workflow_fields_declared which_fsl ["sub-01"] "/work/ds000246_mri" "/work/metrics"
           (structural_pipeline.inputnode ["sub-01"])
           (structural_pipeline.t1w_resolver "/work/ds000246_mri")
           [("subject_id", "subject_id")]).
  - vm_compute. apply list_elem_of_here.
  - apply list_elem_of_here.
Defined.

(** With FSL installed the segmentation files reach the volume node. *)
Lemma workflow_inputs_supplied_witness :
  supplied (structural_pipeline.workflow which_fsl ["sub-01"] "/work/ds000246_mri"
              "/work/metrics")
           (structural_pipeline.t1w_resolver "/work/ds000246_mri") "subject_id" ∧
  supplied (structural_pipeline.workflow which_fsl ["sub-01"] "/work/ds000246_mri"
              "/work/metrics")
           (structural_pipeline.volume_node "/work/metrics") "seg_files".
Proof.
  destruct (workflow_inputs_supplied which_fsl ["sub-01"] "/work/ds000246_mri" "/work/metrics")
    as [Hresolver Hvolume].
  split.
  - apply (Hresolver ["subject_id"; "bids_root"]); [reflexivity|apply list_elem_of_here].
  - apply (proj2 Hvolume) with (ins := ["seg_files"; "subject_id"; "output_dir"]).
    + discriminate.
    + reflexivity.
    + apply list_elem_of_here.
Defined.



(** The participants table is not touched by the volumetry of a subject. *)
Lemma compute_tissue_volumes_frame_witness :
  cwd (structural_pipeline.compute_tissue_volumes ["seg_1.nii.gz"] "sub-01" "out/metrics"
         disk).2 = cwd disk ∧
  entry_at (structural_pipeline.compute_tissue_volumes ["seg_1.nii.gz"] "sub-01" "out/metrics"
              disk).2 ["work"; "ds000246_mri"; "participants.tsv"] =
  entry_at disk ["work"; "ds000246_mri"; "participants.tsv"].
Proof.
  apply (compute_tissue_volumes_frame disk ["seg_1.nii.gz"] "sub-01" "out/metrics").
  - vm_compute. reflexivity.
  - apply (bool_decide_eq_true_1 _). vm_compute. reflexivity.
  - apply (bool_decide_eq_true_1 _). vm_compute. reflexivity.
Defined.

Lemma summary_of_no_participants_witness :
  (summarize_dataset.script root disk_unenrolled).1 = inl KeyError ∧
  table_at (summarize_dataset.script root disk_unenrolled).2 (summarize_dataset.OUTPUT_CSV root)
    = Some (mkDataFrame [] []).
Proof.
  apply (summary_of_no_participants root disk_unenrolled unenrolled).
  - vm_compute. reflexivity.
  - vm_compute. reflexivity.
  - reflexivity.
  - vm_compute. reflexivity.
Defined.

Lemma summary_without_id_column_witness :
  summarize_dataset.script root disk_anonymous =
    (inl KeyError, (mkdir_p (summarize_dataset.SUMMARY_DIR root) disk_anonymous).2).
Proof.
  apply (summary_without_id_column root disk_anonymous anonymous).
  - vm_compute. reflexivity.
  - vm_compute. reflexivity.
  - apply (bool_decide_eq_true_1 _). vm_compute. reflexivity.
  - discriminate.
Defined.




(** The one subject discovered on [disk]. *)
Lemma discovered_subjects_resolve_witness :
  structural_pipeline.get_t1w_path "sub-01" "/work/ds000246_mri" disk =
    (inr "/work/ds000246_mri/sub-01/anat/sub-01_T1w.nii.gz", disk).
Proof.
  apply (discovered_subjects_resolve disk "sub-01").
  - vm_compute. reflexivity.
  - vm_compute. apply list_elem_of_here.
Defined.



(** On the dataset as downloaded the script creates both directories and
    still finds the one subject with an image. *)
Lemma setup_preserves_subjects_witness :
  structural_pipeline.all_subjects (structural_pipeline.setup disk_raw).2 =
    structural_pipeline.all_subjects disk_raw ∧
  structural_pipeline.subjects (structural_pipeline.setup disk_raw).2 =
    structural_pipeline.subjects disk_raw.
Proof.
  apply (setup_preserves_subjects disk_raw). vm_compute. reflexivity.
Defined.
